(** * BadRobot worker: masked patch regeneration, shallow embedding

    Two source files: [src/unnamed/part_000] (the Jimp based worker that
    regenerates one masked patch) and [src/server.js] (the multi-pair
    endpoint whose regeneration is a stub).  Images are modelled as Jimp
    bitmaps: a width, a height and a flat RGBA byte buffer addressed by
    [(y * width + x) * 4 + channel]. *)

From Stdlib Require Import ZArith Lia String Ascii List Bool Sorted.
From stdpp Require Import base list gmap strings pretty.
Import ListNotations.
Open Scope Z_scope.

(* ------------------------------------------------------------------ *)
(** ** Jimp bitmaps and the library operations the worker uses *)

Module Jimp.

Record raster := mkRaster {
  width : Z;
  height : Z;
  data : list Z
}.

(** [bitmap.data[i]]: [undefined] (here [None]) outside the buffer. *)
Definition chan (d : list Z) (i : Z) : option Z :=
  if i <? 0 then None else d !! Z.to_nat i.

Definition chan0 (d : list Z) (i : Z) : Z :=
  match chan d i with Some v => v | None => 0 end.

Definition pixel_index (r : raster) (x y : Z) : Z := (y * width r + x) * 4.

(** [bitmap.data[i] = v] on a Node [Buffer]: writes outside the buffer are
    ignored; stored values are truncated to a byte. *)
Definition store (d : list Z) (i v : Z) : list Z :=
  if i <? 0 then d else <[Z.to_nat i := Z.max 0 (Z.min 255 v)]> d.

(** [new Jimp(W, H, 0x00000000)]: a transparent black bitmap. *)
Definition blank (w h : Z) : raster :=
  mkRaster w h (repeat 0 (Z.to_nat (w * h * 4))).

(** [image.clone()]: a copy of the bitmap. *)
Definition clone (r : raster) : raster := mkRaster (width r) (height r) (data r).

(** Generates a fresh [w * h] bitmap row by row from a pixel function. *)
Definition gen_bitmap (w h : Z) (f : Z -> Z -> Z -> Z) : list Z :=
  flat_map (fun y => flat_map (fun x => map (f x y) [0; 1; 2; 3]) (seqZ 0 w))
    (seqZ 0 h).

(** [image.resize(w, h)]: the result is [w x h], each axis scaled on its
    own.  Jimp's default kernel interpolates between the source pixels
    around the position [(j * wSrc / wDst, i * hSrc / hDst)]; here target
    pixel [(j, i)] takes the nearest source pixel at that position, rounded
    down.  The two agree on the size of the result, on a resize to the
    source's own size (Jimp then copies the bitmap), and on a one-pixel
    source, whose pixel Jimp copies to every target pixel; other pixel
    values may differ. *)
Definition resize (r : raster) (w h : Z) : raster :=
  mkRaster w h
    (gen_bitmap w h (fun j i c =>
       chan0 (data r)
         (((i * height r / h) * width r + (j * width r / w)) * 4 + c))).

(** [image.crop(x, y, w, h)]: pixel [(i, j)] of the result is pixel
    [(x + i, y + j)] of the source. *)
Definition crop (r : raster) (x y w h : Z) : raster :=
  mkRaster w h
    (gen_bitmap w h (fun i j c =>
       chan0 (data r) (((y + j) * width r + (x + i)) * 4 + c))).

(** Jimp's [scanQuiet(0, 0, w, h, f)] over a source bitmap, threading the
    destination buffer that [f] writes. *)
Definition scan {A} (w h : Z) (f : A -> Z -> Z -> A) (a : A) : A :=
  fold_left (fun a y => fold_left (fun a x => f a x y) (seqZ 0 w) a)
    (seqZ 0 h) a.

Section Blend.
(** Jimp's [srcOver] blend with opacity 1, on bytes: Jimp computes it on
    floats in [0, 1] and truncates when it stores the bytes, so its result
    may be one unit below this exact quotient.  The two agree for a fully
    transparent source pixel over an opaque one: both give back the
    destination bytes ([k / 255 * 255 = k] in double precision for every
    byte [k]). *)
Definition src_over (sr sg sb sa dr dg db da : Z) : Z * Z * Z * Z :=
  let a := da * 255 + sa * 255 - da * sa in          (* alpha * 255^2 *)
  let mix s d := if a =? 0 then 0
                 else (s * sa * 255 + d * da * (255 - sa)) / a in
  (mix sr dr, mix sg dg, mix sb db, a / 255).
End Blend.

(** [dest.composite(src, x, y)]: every source pixel is blended onto the
    destination pixel at [(x + sx, y + sy)]; pixels falling outside the
    destination are skipped. *)
Definition composite (dst src : raster) (x y : Z) : raster :=
  mkRaster (width dst) (height dst)
    (scan (width src) (height src) (fun d sx sy =>
       let dx := x + sx in let dy := y + sy in
       if (0 <=? dx) && (dx <? width dst) && (0 <=? dy) && (dy <? height dst)
       then
         let si := (sy * width src + sx) * 4 in
         let di := (dy * width dst + dx) * 4 in
         let '(r, g, b, a) :=
           src_over (chan0 (data src) si) (chan0 (data src) (si + 1))
                    (chan0 (data src) (si + 2)) (chan0 (data src) (si + 3))
                    (chan0 d di) (chan0 d (di + 1))
                    (chan0 d (di + 2)) (chan0 d (di + 3)) in
         store (store (store (store d di r) (di + 1) g) (di + 2) b) (di + 3) a
       else d) (data dst)).

(** [dest.mask(src, x, y)]: the destination alpha is scaled by the average
    of the mask's R, G, B channels over 255.  Jimp multiplies in floating
    point and truncates, so its byte may be one unit below this quotient;
    a zero alpha stays zero in both. *)
Definition mask (dst src : raster) (x y : Z) : raster :=
  mkRaster (width dst) (height dst)
    (scan (width src) (height src) (fun d sx sy =>
       let dx := x + sx in let dy := y + sy in
       if (0 <=? dx) && (0 <=? dy) && (dx <? width dst) && (dy <? height dst)
       then
         let si := (sy * width src + sx) * 4 in
         let di := (dy * width dst + dx) * 4 in
         let sum := chan0 (data src) si + chan0 (data src) (si + 1)
                    + chan0 (data src) (si + 2) in
         store d (di + 3) (chan0 d (di + 3) * sum / 765)
       else d) (data dst)).

End Jimp.

Import Jimp.

(* ------------------------------------------------------------------ *)
(** ** Mask geometry: [maskBBox] and [clampBBox] (part_000, lines 29-57) *)

Record bbox := mkBBox { bb_x : Z; bb_y : Z; bb_w : Z; bb_h : Z }.

(** The activity test of [maskBBox]:
    [Math.max(data[idx], data[idx+1], data[idx+2]) > 128].  A missing byte
    is [undefined], [Math.max] is then [NaN] and the test is false. *)
Definition is_active (m : raster) (x y : Z) : bool :=
  let idx := pixel_index m x y in
  match chan (data m) idx, chan (data m) (idx + 1), chan (data m) (idx + 2) with
  | Some r, Some g, Some b => 128 <? Z.max r (Z.max g b)
  | _, _, _ => false
  end.

Record scan_st := mkScan { minX : Z; minY : Z; maxX : Z; maxY : Z }.

(** The body of the double loop. *)
Definition bbox_step (m : raster) (s : scan_st) (x y : Z) : scan_st :=
  if is_active m x y then
    mkScan (if x <? minX s then x else minX s)
           (if y <? minY s then y else minY s)
           (if maxX s <? x then x else maxX s)
           (if maxY s <? y then y else maxY s)
  else s.

Definition maskBBox (m : raster) : option bbox :=
  let s := scan (width m) (height m) (bbox_step m)
             (mkScan (width m) (height m) (-1) (-1)) in
  if maxX s <? 0 then None
  else Some (mkBBox (minX s) (minY s) (maxX s - minX s + 1) (maxY s - minY s + 1)).

Definition clampBBox (bb : bbox) (W H : Z) : bbox :=
  let x := Z.max 0 (Z.min (W - 1) (bb_x bb)) in
  let y := Z.max 0 (Z.min (H - 1) (bb_y bb)) in
  let w := Z.max 1 (Z.min (W - x) (bb_w bb)) in
  let h := Z.max 1 (Z.min (H - y) (bb_h bb)) in
  mkBBox x y w h.

(** [mask.clone().gaussian(r)] (Jimp's gaussian plugin).  Jimp rejects a
    radius below 1.  The window has half size [ceil (r * 2.57)], edges
    clamped.  For each pixel the sums run row by row over the window, and
    after each row of the window the pixel is overwritten in place with the
    rounded running means, so later rows read the values already written.
    The floating point weights [exp (-(dx^2+dy^2) / (2 r^2))] are
    approximated in 16-bit fixed point through [(1 - t/32)^32], so a
    blurred byte may differ from Jimp's by rounding. *)
Definition gauss_rs (r : Z) : Z := (257 * r + 99) / 100.

Definition gauss_weight (r dx dy : Z) : Z :=
  let dsq := dx * dx + dy * dy in
  let den := 64 * r * r in
  Nat.iter 32 (fun acc => acc * (den - dsq) / den) 65536.

Definition gaussian (m : raster) (r : Z) : string + raster :=
  if r <? 1 then inl "r must be greater than 0"%string else
  let rs := gauss_rs r in
  let range := 2 * rs + 1 in
  let w := width m in let h := height m in
  inr (mkRaster w h (scan w h (fun d x y =>
    let idx := (y * w + x) * 4 in
    fst (fold_left (fun (st : list Z * (Z * Z * Z * Z * Z)) iy =>
      let '(d, acc) := st in
      let acc :=
        fold_left (fun acc ix =>
          let '(red, green, blue, alpha, wsum) := acc in
          let x1 := Z.min (w - 1) (Z.max 0 (ix + x - rs)) in
          let y1 := Z.min (h - 1) (Z.max 0 (iy + y - rs)) in
          let wt := gauss_weight r (ix - rs) (iy - rs) in
          let i := (y1 * w + x1) * 4 in
          (red + chan0 d i * wt, green + chan0 d (i + 1) * wt,
           blue + chan0 d (i + 2) * wt, alpha + chan0 d (i + 3) * wt,
           wsum + wt)) (seqZ 0 range) acc in
      let '(red, green, blue, alpha, wsum) := acc in
      let rnd v := (2 * v + wsum) / (2 * wsum) in          (* Math.round *)
      (store (store (store (store d idx (rnd red)) (idx + 1) (rnd green))
         (idx + 2) (rnd blue)) (idx + 3) (rnd alpha), acc))
      (seqZ 0 range) (d, (0, 0, 0, 0, 0)))) (data m))).

(** [async function feather(mask, radius = 4)]. *)
Definition feather (m : raster) (radius : option Z) : string + raster :=
  gaussian (clone m) (default 4 radius).

(* ------------------------------------------------------------------ *)
(** ** The [POST /process] handler of part_000 *)

Module Worker.

Inductive response :=
  | Json (status : Z) (error : string) (details : option string)
  | Png (out : raster).

(** An uploaded file: its field name, and what happens to its bytes:
    [sharp(buffer).png().toBuffer()] fails with a message or yields a PNG,
    on which [Jimp.read] fails with a message or yields a bitmap. *)
Record upload := mkUpload {
  fieldname : string;
  content : string + (string + raster)
}.

(** One part of the model's answer; [inline_data] is [p.inlineData?.data]. *)
Record part := mkPart { inline_data : option string }.

(** The outside world the handler talks to. *)
Record env := mkEnv {
  gemini_api_key : option string;                  (* process.env.GEMINI_API_KEY *)
  generate_content : raster -> raster -> string -> string + list part;
      (* model.generateContent([...]): a rejection message, or the
         [result?.response?.candidates?.[0]?.content?.parts || []] list *)
  read_image : string -> string + raster
      (* Jimp.read(Buffer.from(data, "base64")) *)
}.

Definition field_matches (fname n : string) : bool :=
  String.eqb fname n || String.prefix (n ++ "_") fname.

Fixpoint pick (files : list upload) (names : list string) : option upload :=
  match files with
  | [] => None
  | f :: fs =>
      if existsb (field_matches (fieldname f)) names then Some f
      else pick fs names
  end.

(** The handler runs in an exit monad: [inl r] leaves the handler with the
    response [r], by an early [return res.status(..).json(..)] or by an
    exception caught at line 128. *)
Definition M (A : Type) : Type := response + A.
Definition bindM {A B} (m : M A) (k : A -> M B) : M B :=
  match m with inl r => inl r | inr a => k a end.
Notation "'let*' x := m 'in' k" := (bindM m (fun x => k))
  (at level 200, x name, m at level 100, k at level 200).

Definition reply {A} (r : response) : M A := inl r.

(** [catch (err) { res.status(500).json({ error: "Processing failed",
    details: String(err) }) }]. *)
Definition try {A} (m : string + A) : M A :=
  match m with
  | inl err => inl (Json 500 "Processing failed" (Some err))
  | inr a => inr a
  end.

Definition api_key_missing (k : option string) : bool :=
  match k with None => true | Some s => String.eqb s "" end.

Fixpoint find_image (parts : list part) : option string :=
  match parts with
  | [] => None
  | p :: ps =>
      match inline_data p with
      | Some d => if String.eqb d "" then find_image ps else Some d
      | None => find_image ps
      end
  end.

Definition prompt : string :=
  "Regenerate the distorted patch so it matches the reference design. Keep size/perspective unchanged.".

Definition sharp_png (f : upload) : M (string + raster) := try (content f).

Definition src_names : list string := ["sourceImage"; "source_image"; "distorted"; "base"].
Definition ref_names : list string := ["referenceImage"; "reference_image"; "reference"; "clean"].
Definition a_names : list string := ["sourceMask"; "source_mask"; "mask"; "maskA"].
Definition b_names : list string := ["referenceMask"; "reference_mask"; "maskB"].

(** Lines 82 to 127, once the four bitmaps are read. *)
Definition regenerate (e : env) (base ref0 maskA0 maskB0 : raster) : M response :=
  let W := width base in let H := height base in
  let ref := resize ref0 W H in
  let maskA := resize maskA0 W H in
  let maskB := resize maskB0 W H in
  match maskBBox maskA, maskBBox maskB with
  | Some bbA, Some bbB =>
      let A := clampBBox bbA W H in
      let B := clampBBox bbB W H in
      let refCrop := resize (crop (clone ref) (bb_x B) (bb_y B) (bb_w B) (bb_h B))
                       (bb_w A) (bb_h A) in
      let distortedPatch := crop (clone base) (bb_x A) (bb_y A) (bb_w A) (bb_h A) in
      if api_key_missing (gemini_api_key e)
      then reply (Json 500 "Missing GEMINI_API_KEY" None) else
      let* parts := try (generate_content e distortedPatch refCrop prompt) in
      match find_image parts with
      | None => reply (Json 502 "Model returned no image" None)
      | Some img =>
          let refPatchCanvas := blank W H in
          let* nanoPatch := try (read_image e img) in
          let refPatchCanvas :=
            composite refPatchCanvas (resize nanoPatch (bb_w A) (bb_h A))
              (bb_x A) (bb_y A) in
          let* feathered := try (feather maskA (Some 4)) in
          let refPatchCanvas := mask refPatchCanvas feathered 0 0 in
          let out := composite (clone base) refPatchCanvas 0 0 in
          inr (Png out)
      end
  | _, _ => reply (Json 400 "Empty mask" None)
  end.

Definition handle (files : list upload) (e : env) : M response :=
  match pick files src_names, pick files ref_names,
        pick files a_names, pick files b_names with
  | Some srcFile, Some refFile, Some aFile, Some bFile =>
      let* srcPng := sharp_png srcFile in
      let* refPng := sharp_png refFile in
      let* aPng := sharp_png aFile in
      let* bPng := sharp_png bFile in
      let* base := try srcPng in
      let* ref := try refPng in
      let* maskA := try aPng in
      let* maskB := try bPng in
      regenerate e base ref maskA maskB
  | _, _, _, _ => reply (Json 400 "Missing files" None)
  end.

(** The response sent for a request. *)
Definition process (files : list upload) (e : env) : response :=
  match handle files e with inl r => r | inr r => r end.

End Worker.

(* ------------------------------------------------------------------ *)
(** ** The [POST /process] handler of server.js *)

Module Server.

(** A file as multer hands it over: its declared MIME type, and the outcome
    of [toPNG(buffer)] (a sharp error message, or the PNG's bitmap). *)
Record sfile := mkSFile {
  mimetype : string;
  to_png : string + raster
}.

(** [req.files] (field name to file array, in insertion order) and the
    text fields of [req.body] the handler reads. *)
Record request := mkRequest {
  files : list (string * list sfile);
  body_mode : option string;
  body_return_format : option string;
  body_quality : option string
}.

(** An [Error] object reaching the error handler: [e.status] and
    [e.message]. *)
Record error := mkError { err_status : option Z; err_message : string }.

Inductive response :=
  | Json (status : Z) (error : string) (detail : string)
  | Image (content_type : string) (quality : option Z) (bitmap : raster).
      (* [res.type(..)] and the bitmap handed to sharp's encoder *)

Definition badRequest (detail : string) : error := mkError (Some 400) detail.
Definition unsupported (detail : string) : error := mkError (Some 415) detail.

Definition M (A : Type) : Type := error + A.
Definition bindM {A B} (m : M A) (k : A -> M B) : M B :=
  match m with inl e => inl e | inr a => k a end.
Notation "'let*' x := m 'in' k" := (bindM m (fun x => k))
  (at level 200, x name, m at level 100, k at level 200).
Definition throw {A} (e : error) : M A := inl e.

(** A sharp failure is an [Error] without [status]. *)
Definition sharp {A} (r : string + A) : M A :=
  match r with inl msg => inl (mkError None msg) | inr a => inr a end.

Definition okTypes : list string :=
  ["image/png"; "image/jpeg"; "image/jpg"; "image/webp"].
Definition ok_type (t : string) : bool := existsb (String.eqb t) okTypes.

Fixpoint lookup_field (fs : list (string * list sfile)) (k : string)
  : option (list sfile) :=
  match fs with
  | [] => None
  | (n, v) :: fs => if String.eqb n k then Some v else lookup_field fs k
  end.

Fixpoint ensureFiles (req : request) (fields : list string) : M unit :=
  match fields with
  | [] => inr tt
  | f :: fs =>
      match lookup_field (files req) f with
      | Some (_ :: _) => ensureFiles req fs
      | _ => throw (badRequest ("Missing file: " ++ f))
      end
  end.

(** [s.split("_").pop()]: the text after the last underscore. *)
Fixpoint last_segment (s : string) (acc : string) : string :=
  match s with
  | EmptyString => acc
  | String c s' =>
      if Ascii.eqb c "_"%char then last_segment s' EmptyString
      else last_segment s' (acc ++ String c EmptyString)
  end.

Definition digit (c : Ascii.ascii) : option Z :=
  let n := Z.of_nat (Ascii.nat_of_ascii c) - 48 in
  if (0 <=? n) && (n <=? 9) then Some n else None.

(** The leading digits of a string, in base 10; [None] when there are
    none. *)
Fixpoint parse_digits (s : string) (acc : option Z) : option Z :=
  match s with
  | EmptyString => acc
  | String c s' =>
      match digit c with
      | Some d => parse_digits s' (Some (10 * default 0 acc + d))
      | None => acc
      end
  end.

(** The white space [parseInt] skips, on ASCII text: tab, line feed,
    vertical tab, form feed, carriage return and space. *)
Definition js_space (c : Ascii.ascii) : bool :=
  let n := Ascii.nat_of_ascii c in (n =? 32)%nat || ((9 <=? n)%nat && (n <=? 13)%nat).

Fixpoint trim_start (s : string) : string :=
  match s with
  | String c s' => if js_space c then trim_start s' else s
  | EmptyString => EmptyString
  end.

(** [parseInt(s, 10)]: leading white space skipped, an optional sign, then
    the value of the leading digits; [None] for [NaN]. *)
Definition parseInt (s : string) : option Z :=
  match trim_start s with
  | String c s' =>
      if Ascii.eqb c "-"%char then option_map Z.opp (parse_digits s' None)
      else if Ascii.eqb c "+"%char then parse_digits s' None
      else parse_digits (String c s') None
  | EmptyString => None
  end.

Definition suffix_key (name : string) : option Z :=
  let seg := last_segment name EmptyString in
  parseInt (if String.eqb seg "" then "0" else seg).

(** The comparator [ai - bi]; [NaN] orders like [0]. *)
Definition key_cmp (a b : option Z) : Z :=
  match a, b with Some i, Some j => i - j | _, _ => 0 end.

(** [Array.prototype.sort] is stable: insertion sort with the comparator.
    When every key is a number the comparator is a total preorder, and
    every stable sort, V8's included, gives this order; with [NaN] keys the
    comparator is inconsistent and V8's binary insertion may order
    differently. *)
Fixpoint insert_sorted {A} (key : A -> option Z) (x : A) (l : list A) : list A :=
  match l with
  | [] => [x]
  | y :: l' => if 0 <? key_cmp (key y) (key x) then x :: y :: l'
               else y :: insert_sorted key x l'
  end.

Definition sort_by {A} (key : A -> option Z) (l : list A) : list A :=
  fold_left (fun acc x => insert_sorted key x acc) l [].

Definition listMasks (req : request) (prefix : string) : list sfile :=
  let entries := filter (fun e => String.prefix prefix e.1) (files req) in
  let entries := sort_by (fun e => suffix_key e.1) entries in
  flat_map (fun e => match e.2 with f :: _ => [f] | [] => [] end) entries.

Record pair := mkPair { index : Z; sourceMaskPNG : raster; referenceMaskPNG : raster }.

Definition lower_char (c : Ascii.ascii) : Ascii.ascii :=
  let n := Ascii.nat_of_ascii c in
  if (65 <=? n)%nat && (n <=? 90)%nat then Ascii.ascii_of_nat (n + 32) else c.

Fixpoint toLowerCase (s : string) : string :=
  match s with
  | EmptyString => EmptyString
  | String c s' => String (lower_char c) (toLowerCase s')
  end.

(** [x || d] on an optional text field: the empty string is falsy. *)
Definition or_default (v : option string) (d : string) : string :=
  match v with Some s => if String.eqb s "" then d else s | None => d end.

(** The implementation stub: it returns the source PNG unchanged. *)
Definition regeneratePatchWithGemini (sourcePNG refPNG : raster)
    (pairs : list pair) (mode : string) : raster :=
  sourcePNG.

Fixpoint collect_pairs (i : Z) (sms rms : list sfile) : M (list pair) :=
  match sms, rms with
  | sMask :: sms', rMask :: rms' =>
      if negb (ok_type (mimetype sMask)) then
        throw (unsupported ("source_mask_" ++ pretty i ++ " type: " ++ mimetype sMask))
      else if negb (ok_type (mimetype rMask)) then
        throw (unsupported ("reference_mask_" ++ pretty i ++ " type: " ++ mimetype rMask))
      else
        let* sMaskPNG := sharp (to_png sMask) in
        let* rMaskPNG := sharp (to_png rMask) in
        let* rest := collect_pairs (i + 1) sms' rms' in
        inr (mkPair i sMaskPNG rMaskPNG :: rest)
  | _, _ => inr []
  end.

Definition handler (req : request) : M response :=
  let* _ := ensureFiles req ["source_image"; "reference_image"] in
  match lookup_field (files req) "source_image",
        lookup_field (files req) "reference_image" with
  | Some (sourceFile :: _), Some (refFile :: _) =>
    if negb (ok_type (mimetype sourceFile)) then
      throw (unsupported ("Unsupported file type for source_image: " ++ mimetype sourceFile))
    else if negb (ok_type (mimetype refFile)) then
      throw (unsupported ("Unsupported file type for reference_image: " ++ mimetype refFile))
    else
    let sourceMasks := listMasks req "source_mask_" in
    let refMasks := listMasks req "reference_mask_" in
    if (length sourceMasks =? 0)%nat || (length refMasks =? 0)%nat then
      throw (badRequest "No masks found. Please paint at least one source_mask_# and reference_mask_#.")
    else if negb (length sourceMasks =? length refMasks)%nat then
      throw (badRequest ("Mask count mismatch. source=" ++ pretty (length sourceMasks)
                         ++ " reference=" ++ pretty (length refMasks)))
    else
    let* sourcePNG := sharp (to_png sourceFile) in
    let* refPNG := sharp (to_png refFile) in
    let* pairs := collect_pairs 0 sourceMasks refMasks in
    let mode := toLowerCase (or_default (body_mode req) "auto") in
    let returnFormat := toLowerCase (or_default (body_return_format req) "png") in
    let quality :=
      match parseInt (or_default (body_quality req) "92") with
      | Some q => Some (Z.min 100 (Z.max 40 q))
      | None => None                                   (* NaN *)
      end in
    let finalBuffer := regeneratePatchWithGemini sourcePNG refPNG pairs mode in
    if String.eqb returnFormat "jpeg" || String.eqb returnFormat "jpg" then
      match quality with
      | Some q => inr (Image "image/jpeg" (Some q) finalBuffer)
      | None => throw (mkError None "Expected integer between 1 and 100 for quality but received NaN of type number")
      end
    else inr (Image "image/png" None finalBuffer)
  | _, _ => throw (badRequest "Missing file: source_image")
  end.

(** The global error handler. *)
Definition to_response (r : M response) : response :=
  match r with
  | inr resp => resp
  | inl e =>
      let status := default 500 (err_status e) in
      Json status
        (if status =? 400 then "Bad Request"
         else if status =? 415 then "Unsupported Media Type"
         else "Processing failed")
        (if String.eqb (err_message e) "" then "Unknown worker error" else err_message e)
  end.

Definition process (req : request) : response := to_response (handler req).

(** The route [app.post("/process", upload.fields([{ name: "source_image",
    maxCount: 1 }, { name: "reference_image", maxCount: 1 }]), handler)].
    multer reads the files before the handler runs: a file under any other
    field name, or a second file under one of these two, makes it fail with
    the [MulterError] [LIMIT_UNEXPECTED_FILE], whose message is "Unexpected
    file field".  A [MulterError] has no [status], so the error handler
    answers 500.  Fields listed without a file carry none; the files are
    taken to be within the 25 MB size limit. *)
Definition upload_field (n : string) : bool :=
  String.eqb n "source_image" || String.eqb n "reference_image".

Definition field_count (fs : list (string * list sfile)) (n : string) : nat :=
  fold_right (fun e acc => ((if String.eqb e.1 n then length e.2 else 0) + acc)%nat) 0%nat fs.

Definition multer_ok (fs : list (string * list sfile)) : bool :=
  forallb (fun e => match e.2 with [] => true | _ :: _ => upload_field e.1 end) fs &&
  (field_count fs "source_image" <=? 1)%nat && (field_count fs "reference_image" <=? 1)%nat.

Definition route (req : request) : response :=
  if multer_ok (files req) then process req
  else to_response (inl (mkError None "Unexpected file field")).

End Server.

(* ------------------------------------------------------------------ *)
(** ** Jimp objects as a shared store, for [feather] (part_000, lines 47-50)

    Jimp images are mutable objects: [gaussian] blurs the image it is
    called on in place, and [clone] allocates a new image.  The store maps
    object addresses to bitmaps. *)

Module Heap.

Record heap := mkHeap { objs : gmap Z raster; next : Z }.

(** Every allocated address lies below the allocation pointer. *)
Definition heap_wf (h : heap) : Prop :=
  forall l r, objs h !! l = Some r -> l < next h.

(** [img.clone()]: allocate a copy at a fresh address. *)
Definition clone_h (h : heap) (l : Z) : option (heap * Z) :=
  match objs h !! l with
  | Some r => Some (mkHeap (<[next h := clone r]> (objs h)) (next h + 1), next h)
  | None => None
  end.

(** [img.gaussian(r)]: blur the object at [l] in place and return it, or
    throw. *)
Definition gaussian_h (h : heap) (l : Z) (r : Z) : option (heap * (string + Z)) :=
  match objs h !! l with
  | Some img =>
      match gaussian img r with
      | inl err => Some (h, inl err)
      | inr img' => Some (mkHeap (<[l := img']> (objs h)) (next h), inr l)
      end
  | None => None
  end.

(** [feather(mask, radius = 4)]: [mask.clone().gaussian(radius)]. *)
Definition feather_h (h : heap) (l : Z) (radius : option Z) : option (heap * (string + Z)) :=
  match clone_h h l with
  | Some (h1, l1) => gaussian_h h1 l1 (default 4 radius)
  | None => None
  end.

End Heap.

(* ------------------------------------------------------------------ *)
(** ** Contain/center-fit resampling, following the spec's words

    "scale to fit within (W, H) without distortion, centered, padding the
    remainder": the image is scaled by [min (W / w, H / h)], placed in the
    middle of a [W x H] canvas, and the rest is transparent. *)

Definition contain_fit (r : raster) (W H : Z) : raster :=
  let w := width r in let h := height r in
  let '(nw, nh) := if W * h <=? H * w then (W, h * W / w) else (w * H / h, H) in
  let ox := (W - nw) / 2 in let oy := (H - nh) / 2 in
  mkRaster W H (gen_bitmap W H (fun tx ty c =>
    if (ox <=? tx) && (tx <? ox + nw) && (oy <=? ty) && (ty <? oy + nh)
    then chan0 (data r) ((((ty - oy) * h / nh) * w + (tx - ox) * w / nw) * 4 + c)
    else 0)).

(* ------------------------------------------------------------------ *)
(** ** Definitions used by the proofs *)

(** The pixel coordinates in the order of the double loop. *)
Definition coords (w h : Z) : list (Z * Z) :=
  flat_map (fun y => map (fun x => (x, y)) (seqZ 0 w)) (seqZ 0 h).

Section BBoxInv.

Variable m : raster.

(** Whether a coordinate pair is an active pixel of [m]. *)
Definition act (p : Z * Z) : bool := is_active m p.1 p.2.

Definition scan0 : scan_st := mkScan (width m) (height m) (-1) (-1).

Definition attains (P : list (Z * Z)) (sel : Z * Z -> Z) (v : Z) : Prop :=
  exists p, In p P /\ act p = true /\ sel p = v.

(** After the pixels [P]: the running box holds every active pixel of [P],
    each of its four edges is attained by an active pixel, and nothing has
    moved while no active pixel was seen. *)
Definition bbox_inv (P : list (Z * Z)) (s : scan_st) : Prop :=
  (forall p, In p P -> act p = true ->
     minX s <= p.1 <= maxX s /\ minY s <= p.2 <= maxY s) /\
  (existsb act P = false -> s = scan0) /\
  (existsb act P = true ->
     attains P fst (minX s) /\ attains P fst (maxX s) /\
     attains P snd (minY s) /\ attains P snd (maxY s)).

End BBoxInv.

(** The clamp of the spec: [clamp(v, lo, hi)]. *)
Definition clamp (v lo hi : Z) : Z := Z.max lo (Z.min hi v).

(** Small masks used as concrete inputs. *)
Definition mask_opaque : raster := mkRaster 2 1 [0; 0; 0; 255; 200; 90; 10; 255].
Definition mask_clear : raster := mkRaster 2 1 [0; 0; 0; 7; 200; 90; 10; 0].

(** The four uploads the worker picks are read into these bitmaps. *)
Definition decoded (files : list Worker.upload) (base ref mA mB : raster) : Prop :=
  exists sf rf af bf,
    Worker.pick files Worker.src_names = Some sf /\
    Worker.pick files Worker.ref_names = Some rf /\
    Worker.pick files Worker.a_names = Some af /\
    Worker.pick files Worker.b_names = Some bf /\
    Worker.content sf = inr (inr base) /\ Worker.content rf = inr (inr ref) /\
    Worker.content af = inr (inr mA) /\ Worker.content bf = inr (inr mB).

(** A concrete request for the worker: a gray 3x1 base, a blue reference,
    and masks selecting the middle pixel. *)
Definition gray3 : raster :=
  mkRaster 3 1 [100; 100; 100; 255; 100; 100; 100; 255; 100; 100; 100; 255].
Definition blue3 : raster :=
  mkRaster 3 1 [0; 0; 255; 255; 0; 0; 255; 255; 0; 0; 255; 255].
Definition mask_mid : raster :=
  mkRaster 3 1 [0; 0; 0; 255; 255; 255; 255; 255; 0; 0; 0; 255].
Definition mask_black : raster :=
  mkRaster 3 1 [0; 0; 0; 255; 0; 0; 0; 255; 0; 0; 0; 255].
Definition white1 : raster := mkRaster 1 1 [255; 255; 255; 255].

Definition worker_files (maskA : raster) : list Worker.upload :=
  [Worker.mkUpload "base" (inr (inr gray3));
   Worker.mkUpload "reference" (inr (inr blue3));
   Worker.mkUpload "sourceMask" (inr (inr maskA));
   Worker.mkUpload "maskB" (inr (inr mask_mid))].

(** A model that answers with one image part, decoded as [patch]. *)
Definition env_with (key : option string) (patch : raster) : Worker.env :=
  Worker.mkEnv key (fun _ _ _ => inr [Worker.mkPart (Some "aW1n")]) (fun _ => inr patch).

(** A store holding one mask at address 0. *)
Definition heap1 : Heap.heap := Heap.mkHeap {[0 := mask_mid]} 1.

(** A mask selecting the left pixel of a 3x1 canvas. *)
Definition mask_left : raster :=
  mkRaster 3 1 [255; 255; 255; 255; 0; 0; 0; 255; 0; 0; 0; 255].

(** A 1x1 reference on a 3x1 base; both masks select the left pixel. *)
Definition small_ref_files : list Worker.upload :=
  [Worker.mkUpload "base" (inr (inr gray3));
   Worker.mkUpload "reference" (inr (inr white1));
   Worker.mkUpload "sourceMask" (inr (inr mask_left));
   Worker.mkUpload "maskB" (inr (inr mask_left))].

(** A model call that fails, reporting whether the reference patch it was
    given is opaque at its first pixel. *)
Definition env_probe : Worker.env :=
  Worker.mkEnv (Some "k")
    (fun _ refCrop _ =>
       inl (if chan0 (data refCrop) 3 =? 255 then "opaque" else "transparent"))
    (fun _ => inr white1).

(** A model call that is rejected with [msg]. *)
Definition env_fail (msg : string) : Worker.env :=
  Worker.mkEnv (Some "k") (fun _ _ _ => inl msg) (fun _ => inr white1).

(** The worker request whose base image cannot be decoded by sharp. *)
Definition corrupt_base_files (msg : string) : list Worker.upload :=
  Worker.mkUpload "base" (inl msg) :: tail (worker_files mask_mid).

(** Requests for server.js: a PNG upload, and a request with two mask pairs
    that both cover the middle pixel. *)
Definition png_file (r : raster) : Server.sfile := Server.mkSFile "image/png" (inr r).

Definition two_pair_files (second : raster) : list (string * list Server.sfile) :=
  [("source_image", [png_file gray3]); ("reference_image", [png_file blue3]);
   ("source_mask_0", [png_file mask_mid]); ("reference_mask_0", [png_file mask_mid]);
   ("source_mask_1", [png_file second]); ("reference_mask_1", [png_file second])].


(** Uploads where a reference mask comes before the reference image. *)
Definition refmask_first_files : list Worker.upload :=
  [Worker.mkUpload "reference_mask_0" (inr (inr mask_mid));
   Worker.mkUpload "reference" (inr (inr blue3))].

(** server.js requests: no source image, and a GIF source image. *)
Definition no_source_request : Server.request :=
  Server.mkRequest [("reference_image", [png_file blue3])] None None None.

Definition gif_request : Server.request :=
  Server.mkRequest (("source_image", [Server.mkSFile "image/gif" (inr gray3)])
                    :: tail (two_pair_files mask_mid)) None None None.

(** A server.js request with the two images only, asking for a
    pass-through mode. *)
Definition passthrough_request : Server.request :=
  Server.mkRequest [("source_image", [png_file gray3]); ("reference_image", [png_file blue3])]
    (Some "passthrough") None None.





(* ================================================================== *)
(** * Proofs *)

(** ** The scan loop as a fold over the pixel coordinates *)

Lemma fold_left_map_pair {A} (f : A -> Z -> Z -> A) (xs : list Z) (y : Z) (a : A) :
  fold_left (fun a p => f a p.1 p.2) (map (fun x => (x, y)) xs) a =
  fold_left (fun a x => f a x y) xs a.
Proof. revert a; induction xs as [|x xs IH]; intros a; simpl; auto. Qed.

Lemma scan_coords {A} (w h : Z) (f : A -> Z -> Z -> A) (a : A) :
  scan w h f a = fold_left (fun a p => f a p.1 p.2) (coords w h) a.
Proof.
  unfold scan, coords. revert a.
  induction (seqZ 0 h) as [|y ys IH]; intros a; simpl; auto.
  rewrite fold_left_app, fold_left_map_pair. apply IH.
Qed.

Lemma in_seqZ (n i : Z) : In i (seqZ 0 n) <-> 0 <= i < n.
Proof. rewrite <- list_elem_of_In, elem_of_seqZ. lia. Qed.

Lemma in_coords (w h x y : Z) :
  In (x, y) (coords w h) <-> 0 <= x < w /\ 0 <= y < h.
Proof.
  unfold coords. rewrite in_flat_map. split.
  - intros (y' & Hy & Hin). apply in_map_iff in Hin as (x' & [= -> ->] & Hx).
    apply in_seqZ in Hx, Hy. lia.
  - intros [Hx Hy]. exists y. split; [apply in_seqZ; lia|].
    apply in_map_iff. exists x. split; [done|apply in_seqZ; lia].
Qed.

(** ** The bounding-box invariant *)

Section BBoxScan.

Variable m : raster.

Lemma bbox_inv_nil : bbox_inv m [] (scan0 m).
Proof.
  split; [intros p []|split; [done|discriminate]].
Qed.

Lemma attains_app (P : list (Z * Z)) q sel v :
  attains m P sel v -> attains m (P ++ [q]) sel v.
Proof. intros (p & Hp & Ha & Hs). exists p. rewrite in_app_iff. auto. Qed.

Lemma attains_last (P : list (Z * Z)) q sel :
  act m q = true -> attains m (P ++ [q]) sel (sel q).
Proof. intros Ha. exists q. rewrite in_app_iff. simpl. auto. Qed.

Lemma in_snoc (P : list (Z * Z)) q p : In p (P ++ [q]) <-> In p P \/ p = q.
Proof. rewrite in_app_iff. simpl. intuition. Qed.

Lemma bbox_inv_step (P : list (Z * Z)) (s : scan_st) (x y : Z) :
  0 <= x < width m -> 0 <= y < height m ->
  bbox_inv m P s -> bbox_inv m (P ++ [(x, y)]) (bbox_step m s x y).
Proof.
  intros Hx Hy (Hb & Hn & He).
  assert (Hex : existsb (act m) (P ++ [(x, y)]) =
                existsb (act m) P || act m (x, y)) by
    (rewrite existsb_app; simpl; now rewrite orb_false_r).
  unfold bbox_inv, bbox_step. destruct (is_active m x y) eqn:Ha.
  - assert (Hq : act m (x, y) = true) by exact Ha.
    rewrite Hex, Hq, orb_true_r.
    destruct (existsb (act m) P) eqn:EP.
    + destruct (He eq_refl) as (H1 & H2 & H3 & H4). cbn [minX minY maxX maxY].
      split; [|split; [discriminate|intros _]].
      * intros p Hp Hap. apply in_snoc in Hp as [Hp| ->].
        -- specialize (Hb p Hp Hap).
           destruct (x <? minX s) eqn:?, (y <? minY s) eqn:?,
                    (maxX s <? x) eqn:?, (maxY s <? y) eqn:?;
             rewrite ?Z.ltb_lt, ?Z.ltb_ge in *; simpl; lia.
        -- simpl.
           destruct (x <? minX s) eqn:?, (y <? minY s) eqn:?,
                    (maxX s <? x) eqn:?, (maxY s <? y) eqn:?;
             rewrite ?Z.ltb_lt, ?Z.ltb_ge in *; lia.
      * repeat split.
        -- destruct (x <? minX s);
             [apply (attains_last P (x, y) fst Hq)|apply attains_app, H1].
        -- destruct (maxX s <? x);
             [apply (attains_last P (x, y) fst Hq)|apply attains_app, H2].
        -- destruct (y <? minY s);
             [apply (attains_last P (x, y) snd Hq)|apply attains_app, H3].
        -- destruct (maxY s <? y);
             [apply (attains_last P (x, y) snd Hq)|apply attains_app, H4].
    + rewrite (Hn eq_refl). unfold scan0. cbn [minX minY maxX maxY].
      replace (x <? width m) with true by (symmetry; apply Z.ltb_lt; lia).
      replace (y <? height m) with true by (symmetry; apply Z.ltb_lt; lia).
      replace (-1 <? x) with true by (symmetry; apply Z.ltb_lt; lia).
      replace (-1 <? y) with true by (symmetry; apply Z.ltb_lt; lia).
      split; [|split; [discriminate|intros _]].
      * intros p Hp Hap. apply in_snoc in Hp as [Hp| ->].
        -- assert (existsb (act m) P = true) by
             (apply existsb_exists; eauto).
           congruence.
        -- simpl. lia.
      * repeat split; [apply (attains_last P (x, y) fst Hq)|
                       apply (attains_last P (x, y) fst Hq)|
                       apply (attains_last P (x, y) snd Hq)|
                       apply (attains_last P (x, y) snd Hq)].
  - assert (Hq : act m (x, y) = false) by exact Ha.
    rewrite Hex, Hq, orb_false_r.
    split; [|split; [exact Hn|intros HP]].
    + intros p Hp Hap. apply in_snoc in Hp as [Hp| ->]; [auto|congruence].
    + destruct (He HP) as (H1 & H2 & H3 & H4).
      repeat split; apply attains_app; assumption.
Qed.

Lemma bbox_inv_fold (L P : list (Z * Z)) (s : scan_st) :
  (forall p, In p L -> 0 <= p.1 < width m /\ 0 <= p.2 < height m) ->
  bbox_inv m P s ->
  bbox_inv m (P ++ L) (fold_left (fun s p => bbox_step m s p.1 p.2) L s).
Proof.
  revert P s. induction L as [|[x y] L IH]; intros P s Hr Hi; simpl.
  - now rewrite app_nil_r.
  - replace (P ++ (x, y) :: L) with ((P ++ [(x, y)]) ++ L)
      by now rewrite <- app_assoc.
    apply IH; [intros p Hp; apply Hr; now right|].
    destruct (Hr (x, y) (or_introl eq_refl)) as [Hx Hy].
    now apply bbox_inv_step.
Qed.

Lemma bbox_inv_scan :
  bbox_inv m (coords (width m) (height m))
    (scan (width m) (height m) (bbox_step m) (scan0 m)).
Proof.
  rewrite scan_coords.
  apply (bbox_inv_fold _ []); [|apply bbox_inv_nil].
  intros [x y] Hp. now apply in_coords in Hp.
Qed.

End BBoxScan.

(** ** C1: [maskBBox] *)

(** C1. [maskBBox m] is [None] exactly when no pixel of the [width * height]
    grid is active (max of R, G, B above 128, see [is_active]); otherwise it
    is a box that contains every active pixel and lies inside every box
    that contains them all, so no smaller box does. *)
Theorem maskBBox_tight (m : raster) :
  (maskBBox m = None <->
   forall x y, 0 <= x < width m -> 0 <= y < height m -> is_active m x y = false) /\
  (forall b, maskBBox m = Some b ->
   (forall x y, 0 <= x < width m -> 0 <= y < height m -> is_active m x y = true ->
      bb_x b <= x < bb_x b + bb_w b /\ bb_y b <= y < bb_y b + bb_h b) /\
   (forall b', (forall x y, 0 <= x < width m -> 0 <= y < height m ->
                 is_active m x y = true ->
                 bb_x b' <= x < bb_x b' + bb_w b' /\ bb_y b' <= y < bb_y b' + bb_h b') ->
      bb_x b' <= bb_x b /\ bb_x b + bb_w b <= bb_x b' + bb_w b' /\
      bb_y b' <= bb_y b /\ bb_y b + bb_h b <= bb_y b' + bb_h b')).
Proof.
  pose proof (bbox_inv_scan m) as (Hb & Hn & He).
  unfold maskBBox. change (mkScan (width m) (height m) (-1) (-1)) with (scan0 m).
  set (s := scan (width m) (height m) (bbox_step m) (scan0 m)) in *.
  destruct (existsb (act m) (coords (width m) (height m))) eqn:E.
  - destruct (He eq_refl) as ((p1 & Hp1 & Ha1 & E1) & (p2 & Hp2 & Ha2 & E2) &
                             (p3 & Hp3 & Ha3 & E3) & (p4 & Hp4 & Ha4 & E4)).
    destruct p1 as [x1 y1], p2 as [x2 y2], p3 as [x3 y3], p4 as [x4 y4].
    apply in_coords in Hp1, Hp2, Hp3, Hp4. unfold act in *. simpl in *.
    replace (maxX s <? 0) with false by (symmetry; apply Z.ltb_ge; lia).
    split.
    + split; [discriminate|]. intros Hall.
      rewrite (Hall x2 y2) in Ha2; [discriminate|lia|lia].
    + intros b [= <-]. cbn [bb_x bb_y bb_w bb_h]. split.
      * intros x y Hx Hy Ha.
        destruct (Hb (x, y)) as [HX HY]; [apply in_coords; lia|exact Ha|].
        simpl in HX, HY. lia.
      * intros b' Hb'.
        pose proof (Hb' x1 y1 ltac:(lia) ltac:(lia) Ha1).
        pose proof (Hb' x2 y2 ltac:(lia) ltac:(lia) Ha2).
        pose proof (Hb' x3 y3 ltac:(lia) ltac:(lia) Ha3).
        pose proof (Hb' x4 y4 ltac:(lia) ltac:(lia) Ha4).
        lia.
  - rewrite (Hn eq_refl). unfold scan0. cbn [maxX]. simpl (-1 <? 0).
    split; [split; [intros _|reflexivity]|intros b [=]].
    intros x y Hx Hy. destruct (is_active m x y) eqn:Ha; [|reflexivity].
    assert (existsb (act m) (coords (width m) (height m)) = true) as Ht.
    { apply existsb_exists. exists (x, y). split; [apply in_coords; lia|exact Ha]. }
    congruence.
Qed.

(** ** C10: the alpha channel does not matter to [maskBBox] *)

Lemma is_active_rgb (m1 m2 : raster) (x y : Z) :
  width m1 = width m2 ->
  (forall c, 0 <= c < 3 ->
     chan (data m1) (pixel_index m1 x y + c) = chan (data m2) (pixel_index m2 x y + c)) ->
  is_active m1 x y = is_active m2 x y.
Proof.
  intros Hw Hc. unfold is_active. cbv zeta.
  pose proof (Hc 0 ltac:(lia)) as H0. pose proof (Hc 1 ltac:(lia)) as H1.
  pose proof (Hc 2 ltac:(lia)) as H2. rewrite !Z.add_0_r in H0.
  now rewrite H0, H1, H2.
Qed.

Lemma fold_bbox_step_ext (m1 m2 : raster) (L : list (Z * Z)) (s : scan_st) :
  (forall p, In p L -> is_active m1 p.1 p.2 = is_active m2 p.1 p.2) ->
  fold_left (fun s p => bbox_step m1 s p.1 p.2) L s =
  fold_left (fun s p => bbox_step m2 s p.1 p.2) L s.
Proof.
  revert s. induction L as [|p L IH]; intros s H; simpl; auto.
  replace (bbox_step m1 s p.1 p.2) with (bbox_step m2 s p.1 p.2)
    by (unfold bbox_step; now rewrite (H p (or_introl eq_refl))).
  apply IH. intros q Hq. apply H. now right.
Qed.

(** C10. Two masks of equal dimensions whose R, G and B bytes agree at
    every pixel have the same bounding box, whatever their alpha bytes. *)
Theorem maskBBox_ignores_alpha (m1 m2 : raster) :
  width m1 = width m2 -> height m1 = height m2 ->
  (forall x y c, 0 <= x < width m1 -> 0 <= y < height m1 -> 0 <= c < 3 ->
     chan (data m1) (pixel_index m1 x y + c) = chan (data m2) (pixel_index m2 x y + c)) ->
  maskBBox m1 = maskBBox m2.
Proof.
  intros Hw Hh Hc. unfold maskBBox. rewrite !scan_coords.
  rewrite (fold_bbox_step_ext m1 m2).
  - now rewrite Hw, Hh.
  - intros [x y] Hp. apply in_coords in Hp. simpl.
    apply is_active_rgb; [exact Hw|]. intros c Hc'. apply Hc; lia.
Qed.

Lemma maskBBox_ignores_alpha_witness :
  maskBBox mask_opaque = maskBBox mask_clear /\
  maskBBox mask_clear = Some (mkBBox 1 0 1 1).
Proof.
  split; [|reflexivity].
  apply maskBBox_ignores_alpha; [reflexivity|reflexivity|].
  intros x y c Hx Hy Hc. cbn [width height mask_opaque] in Hx, Hy.
  assert (y = 0) as -> by lia.
  assert (x = 0 \/ x = 1) as [-> | ->] by lia;
    (assert (c = 0 \/ c = 1 \/ c = 2) as [-> | [-> | ->]] by lia); reflexivity.
Defined.

(** ** C6: [clampBBox] *)

Ltac elim_minmax :=
  repeat match goal with
  | |- context [Z.min ?a ?b] =>
      destruct (Z.min_spec a b) as [[? Hmm]|[? Hmm]]; rewrite Hmm; clear Hmm
  | |- context [Z.max ?a ?b] =>
      destruct (Z.max_spec a b) as [[? Hmm]|[? Hmm]]; rewrite Hmm; clear Hmm
  end.

(** C6. On a canvas with [W >= 1] and [H >= 1], [clampBBox] computes
    [x' = clamp(x, 0, W-1)], [w' = clamp(w, 1, W-x')] (same for [y], [h]) and
    its box lies inside [[0,W) x [0,H)] with width and height at least 1,
    whatever the input box. *)
Theorem clampBBox_inside (bb : bbox) (W H : Z) :
  1 <= W -> 1 <= H ->
  let c := clampBBox bb W H in
  c = mkBBox (clamp (bb_x bb) 0 (W - 1)) (clamp (bb_y bb) 0 (H - 1))
             (clamp (bb_w bb) 1 (W - clamp (bb_x bb) 0 (W - 1)))
             (clamp (bb_h bb) 1 (H - clamp (bb_y bb) 0 (H - 1))) /\
  0 <= bb_x c <= W - 1 /\ 0 <= bb_y c <= H - 1 /\
  1 <= bb_w c <= W - bb_x c /\ 1 <= bb_h c <= H - bb_y c /\
  bb_x c + bb_w c <= W /\ bb_y c + bb_h c <= H.
Proof.
  intros HW HH c. subst c. unfold clampBBox, clamp. cbn [bb_x bb_y bb_w bb_h].
  split; [reflexivity|]. elim_minmax; lia.
Qed.

Lemma clampBBox_inside_witness :
  clampBBox (mkBBox (-5) 7 0 40) 4 3 = mkBBox 0 2 1 1 /\
  (1 <= 4 /\ 1 <= 3) /\ 0 <= bb_x (clampBBox (mkBBox (-5) 7 0 40) 4 3) <= 3.
Proof.
  split; [reflexivity|split; [lia|]].
  apply (clampBBox_inside (mkBBox (-5) 7 0 40) 4 3); lia.
Defined.

(** ** C9: [feather] works on a copy *)

Lemma heap_wf_insert (h : Heap.heap) (l : Z) (r : raster) (n : Z) :
  Heap.heap_wf h -> l < n -> Heap.next h <= n ->
  Heap.heap_wf (Heap.mkHeap (<[l := r]> (Heap.objs h)) n).
Proof.
  intros Hwf Hl Hn k v. simpl. destruct (decide (l = k)) as [<-|Hne].
  - intros _. lia.
  - rewrite lookup_insert_ne by done. intros Hk. specialize (Hwf k v Hk). lia.
Qed.

Lemma gaussian_ok (img : raster) (r : Z) :
  1 <= r -> exists img', gaussian img r = inr img'.
Proof.
  intros Hr. unfold gaussian. replace (r <? 1) with false by (symmetry; apply Z.ltb_ge; lia).
  eexists; reflexivity.
Qed.

(** C9 (amended).  [feather(mask, radius)] clones the mask object and blurs
    the clone: the store afterwards still holds the original mask unchanged
    at its address; with a radius of at least 1 (the default is 4) the
    result is a new object, distinct from the mask, holding the blurred
    copy; with a radius below 1 Jimp's [gaussian] throws. *)
Theorem feather_on_copy (h : Heap.heap) (l : Z) (m : raster) (radius : option Z) :
  Heap.heap_wf h -> Heap.objs h !! l = Some m ->
  exists h' res,
    Heap.feather_h h l radius = Some (h', res) /\
    Heap.objs h' !! l = Some m /\ Heap.heap_wf h' /\
    (1 <= default 4 radius ->
       exists l' b, res = inr l' /\ l' <> l /\ feather m radius = inr b /\
                    Heap.objs h' !! l' = Some b) /\
    (default 4 radius < 1 ->
       res = inl "r must be greater than 0"%string /\
       feather m radius = inl "r must be greater than 0"%string).
Proof.
  intros Hwf Hl. pose proof (Hwf l m Hl) as Hlt.
  unfold Heap.feather_h, Heap.clone_h. rewrite Hl.
  unfold Heap.gaussian_h. cbn [Heap.objs Heap.next]. rewrite lookup_insert_eq.
  assert (Hfe : feather m radius = gaussian (clone m) (default 4 radius)) by reflexivity.
  destruct (Z_lt_le_dec (default 4 radius) 1) as [Hr|Hr].
  - assert (Hg : gaussian (clone m) (default 4 radius) = inl "r must be greater than 0"%string).
    { unfold gaussian. now replace (default 4 radius <? 1) with true by (symmetry; apply Z.ltb_lt; lia). }
    rewrite Hg. do 2 eexists. split; [reflexivity|]. cbn [Heap.objs].
    split; [rewrite lookup_insert_ne by lia; exact Hl|].
    split; [apply heap_wf_insert; [exact Hwf|lia|simpl; lia]|].
    split; [intros; lia|intros _; now rewrite Hfe].
  - destruct (gaussian_ok (clone m) (default 4 radius) Hr) as [img' Hg].
    rewrite Hg. do 2 eexists. split; [reflexivity|]. cbn [Heap.objs].
    split; [rewrite !lookup_insert_ne by lia; exact Hl|].
    split.
    { intros k v Hk. simpl in Hk |- *.
      destruct (decide (Heap.next h = k)) as [<-|Hne]; [lia|].
      rewrite !lookup_insert_ne in Hk by done. specialize (Hwf k v Hk). lia. }
    split; [|intros; lia].
    intros _. exists (Heap.next h), img'. split; [reflexivity|]. split; [lia|].
    split; [now rewrite Hfe|apply lookup_insert_eq].
Qed.

Lemma feather_on_copy_witness :
  Heap.heap_wf heap1 /\ Heap.objs heap1 !! 0 = Some mask_mid /\
  exists h' res,
    Heap.feather_h heap1 0 None = Some (h', res) /\ Heap.objs h' !! 0 = Some mask_mid.
Proof.
  assert (Hwf : Heap.heap_wf heap1).
  { intros k v Hk. simpl in Hk. apply lookup_singleton_Some in Hk as [<- _]. simpl. lia. }
  assert (Hl : Heap.objs heap1 !! 0 = Some mask_mid) by reflexivity.
  split; [exact Hwf|split; [exact Hl|]].
  destruct (feather_on_copy heap1 0 mask_mid None Hwf Hl) as (h' & res & Hf & Hk & _).
  exists h', res. split; assumption.
Defined.

(** C9 as stated fails for a radius below 1: [feather] then throws
    instead of returning a blurred raster. *)
Lemma feather_radius_zero_throws :
  feather mask_mid (Some 0) = inl "r must be greater than 0"%string.
Proof. reflexivity. Qed.

(** ** The worker handler once its inputs are read *)

Lemma process_decoded (files : list Worker.upload) (e : Worker.env) base ref mA mB :
  decoded files base ref mA mB ->
  Worker.process files e =
  match Worker.regenerate e base ref mA mB with inl r => r | inr r => r end.
Proof.
  intros (sf & rf & af & bf & H1 & H2 & H3 & H4 & C1 & C2 & C3 & C4).
  unfold Worker.process, Worker.handle. rewrite H1, H2, H3, H4.
  unfold Worker.sharp_png, Worker.try. rewrite C1, C2, C3, C4. reflexivity.
Qed.

Lemma decoded_worker_files (mA : raster) :
  decoded (worker_files mA) gray3 blue3 mA mask_mid.
Proof. do 4 eexists. repeat split; reflexivity. Qed.

(** An image response is always the base bitmap with a layer composited
    on it at the origin. *)
Lemma regenerate_png e base ref mA mB (out : raster) :
  match Worker.regenerate e base ref mA mB with inl r => r | inr r => r end =
    Worker.Png out ->
  exists layer, out = composite (clone base) layer 0 0.
Proof.
  unfold Worker.regenerate. cbv zeta.
  destruct (maskBBox (resize mA (width base) (height base))) as [bbA|]; [|discriminate].
  destruct (maskBBox (resize mB (width base) (height base))) as [bbB|]; [|discriminate].
  destruct (Worker.api_key_missing (Worker.gemini_api_key e)); [discriminate|].
  unfold Worker.bindM, Worker.try.
  lazymatch goal with
  | |- context [Worker.generate_content e ?a ?b ?c] =>
      destruct (Worker.generate_content e a b c) as [err|parts]; [discriminate|]
  end.
  destruct (Worker.find_image parts) as [img|]; [|discriminate].
  destruct (Worker.read_image e img) as [err|nano]; [discriminate|].
  lazymatch goal with
  | |- context [feather ?a ?b] => destruct (feather a b) as [err|fe]; [discriminate|]
  end.
  intros [= <-]. eexists; reflexivity.
Qed.

Lemma store_length (d : list Z) (i v : Z) : length (store d i v) = length d.
Proof. unfold store. destruct (i <? 0); [done|apply length_insert]. Qed.

Lemma scan_length (w h : Z) (f : list Z -> Z -> Z -> list Z) (d : list Z) :
  (forall d x y, length (f d x y) = length d) -> length (scan w h f d) = length d.
Proof.
  intros Hf. rewrite scan_coords. generalize (coords w h) as L. intros L.
  revert d. induction L as [|p L IH]; intros d; simpl; [done|].
  now rewrite IH, Hf.
Qed.

Lemma composite_dims (dst src : raster) (x y : Z) :
  width (composite dst src x y) = width dst /\
  height (composite dst src x y) = height dst /\
  length (data (composite dst src x y)) = length (data dst).
Proof.
  split; [reflexivity|split; [reflexivity|]].
  simpl. apply scan_length. intros d sx sy. cbv zeta.
  destruct (_ && _); [|done].
  now rewrite !store_length.
Qed.

(** ** C2: the output keeps the base canvas size *)

(** C2. Whatever the reference and mask bitmaps and whatever the model
    answers, an image response of the worker has exactly the width and
    height of the base bitmap, and (for a well-formed base) the same
    buffer length. *)
Theorem output_keeps_base_size (files : list Worker.upload) (e : Worker.env)
    (base ref mA mB out : raster) :
  decoded files base ref mA mB ->
  Worker.process files e = Worker.Png out ->
  width out = width base /\ height out = height base /\
  (length (data base) = Z.to_nat (width base * height base * 4) ->
   length (data out) = length (data base)).
Proof.
  intros Hd Hp. rewrite (process_decoded files e base ref mA mB Hd) in Hp.
  destruct (regenerate_png e base ref mA mB out Hp) as [layer ->].
  destruct (composite_dims (clone base) layer 0 0) as (Hw & Hh & Hl).
  rewrite Hw, Hh, Hl. simpl. auto.
Qed.

Lemma output_keeps_base_size_witness :
  exists out,
    Worker.process (worker_files mask_mid) (env_with (Some "k") white1) = Worker.Png out /\
    width out = 3 /\ height out = 1 /\ length (data out) = 12%nat.
Proof.
  destruct (Worker.process (worker_files mask_mid) (env_with (Some "k") white1)) eqn:Hp.
  - vm_compute in Hp. discriminate.
  - exists out. split; [reflexivity|].
    destruct (output_keeps_base_size (worker_files mask_mid) (env_with (Some "k") white1)
                gray3 blue3 mask_mid mask_mid out (decoded_worker_files mask_mid) Hp)
      as (Hw & Hh & Hl).
    rewrite Hw, Hh, Hl; [|reflexivity]. repeat split.
Defined.

(** ** C3: an empty mask aborts the request *)

(** C3. Once the bitmaps are read, if the source mask or the reference mask
    (resized to the base) has no active pixel, the response is the caller
    error [400 "Empty mask"] and no image, whatever the model and the API
    key would do. *)
Theorem empty_mask_aborts (files : list Worker.upload) (e : Worker.env)
    (base ref mA mB : raster) :
  decoded files base ref mA mB ->
  maskBBox (resize mA (width base) (height base)) = None \/
  maskBBox (resize mB (width base) (height base)) = None ->
  Worker.process files e = Worker.Json 400 "Empty mask" None.
Proof.
  intros Hd Hm. rewrite (process_decoded files e base ref mA mB Hd).
  unfold Worker.regenerate. cbv zeta.
  destruct Hm as [Hm|Hm]; rewrite Hm; [reflexivity|].
  destruct (maskBBox (resize mA (width base) (height base))); reflexivity.
Qed.

Lemma empty_mask_aborts_witness :
  maskBBox (resize mask_black 3 1) = None /\
  Worker.process (worker_files mask_black) (env_with (Some "k") white1) =
    Worker.Json 400 "Empty mask" None.
Proof.
  assert (Hm : maskBBox (resize mask_black 3 1) = None) by reflexivity.
  split; [exact Hm|].
  apply (empty_mask_aborts _ _ gray3 blue3 mask_black mask_mid).
  - apply decoded_worker_files.
  - left. exact Hm.
Defined.

(** ** C4: how the reference and the masks are brought to the base size *)

Lemma lookup_flat_map_blocks {A B} (g : A -> list B) (k : nat) (l : list A) (i j : nat) :
  (forall a, length (g a) = k) -> (j < k)%nat ->
  flat_map g l !! (i * k + j)%nat = l !! i ≫= (fun a => g a !! j).
Proof.
  intros Hk Hj. revert i. induction l as [|a l IH]; intros i; [done|].
  simpl. destruct i as [|i].
  - simpl. rewrite lookup_app_l by (rewrite Hk; lia). done.
  - rewrite lookup_app_r by (rewrite Hk; lia). rewrite Hk.
    replace (S i * k + j - k)%nat with (i * k + j)%nat by lia. apply IH.
Qed.

Lemma gen_bitmap_lookup (w h : Z) (f : Z -> Z -> Z -> Z) (x y c : Z) :
  0 <= x < w -> 0 <= y < h -> 0 <= c < 4 ->
  gen_bitmap w h f !! Z.to_nat ((y * w + x) * 4 + c) = Some (f x y c).
Proof.
  intros Hx Hy Hc. unfold gen_bitmap.
  replace (Z.to_nat ((y * w + x) * 4 + c))
    with (Z.to_nat y * (4 * Z.to_nat w) + (Z.to_nat x * 4 + Z.to_nat c))%nat
    by (apply Nat2Z.inj; rewrite !Nat2Z.inj_add, !Nat2Z.inj_mul, !Z2Nat.id by nia; nia).
  rewrite (lookup_flat_map_blocks _ (4 * Z.to_nat w)).
  - rewrite lookup_seqZ_lt by lia. simpl.
    rewrite (lookup_flat_map_blocks _ 4).
    + rewrite lookup_seqZ_lt by lia. simpl.
      rewrite !Z2Nat.id by lia.
      assert (c = 0 \/ c = 1 \/ c = 2 \/ c = 3) as [-> | [-> | [-> | ->]]] by lia;
        reflexivity.
    + intros a. reflexivity.
    + lia.
  - intros a.
    assert (Hl : forall l : list Z,
      length (flat_map (fun x => map (f x a) [0; 1; 2; 3]) l) = (4 * length l)%nat).
    { induction l as [|z zs IH]; [done|].
      cbn [flat_map]. rewrite length_app, IH. simpl. lia. }
    rewrite Hl, length_seqZ. lia.
  - lia.
Qed.

Lemma length_flat_map_const {A B} (g : A -> list B) (k : nat) (l : list A) :
  (forall a, length (g a) = k) -> length (flat_map g l) = (length l * k)%nat.
Proof.
  intros Hk. induction l as [|a l IH]; [done|].
  cbn [flat_map]. rewrite length_app, IH, Hk. simpl. lia.
Qed.

Lemma gen_bitmap_length (w h : Z) (f : Z -> Z -> Z -> Z) :
  0 <= w -> 0 <= h -> length (gen_bitmap w h f) = Z.to_nat (w * h * 4).
Proof.
  intros Hw Hh. unfold gen_bitmap.
  rewrite (length_flat_map_const _ (Z.to_nat w * 4)).
  - rewrite length_seqZ, !Z2Nat.inj_mul by lia. change (Z.to_nat 4) with 4%nat. lia.
  - intros y. rewrite (length_flat_map_const _ 4); [now rewrite length_seqZ|].
    intros x. reflexivity.
Qed.

(** C4 (amended).  [resize(W, H)] stretches: the result is exactly
    [W x H] whatever the source size, each axis scaled on its own, so the
    aspect ratio is not kept and nothing is padded: a one-pixel source
    fills every pixel of the [W x H] result.  The worker applies it
    unconditionally (lines 82-83): the reference and both masks reach the
    rest of the handler only through [resize _ W H], with [(W, H)] the
    base's size. *)
Theorem resize_stretches :
  (forall r W H, 0 <= W -> 0 <= H ->
     width (resize r W H) = W /\ height (resize r W H) = H /\
     length (data (resize r W H)) = Z.to_nat (W * H * 4)) /\
  (forall p W H j i c, width p = 1 -> height p = 1 ->
     0 <= j < W -> 0 <= i < H -> 0 <= c < 4 ->
     chan (data (resize p W H)) (pixel_index (resize p W H) j i + c) =
     Some (chan0 (data p) c)) /\
  (forall e base ref ref' mA mA' mB mB',
     resize ref (width base) (height base) = resize ref' (width base) (height base) ->
     resize mA (width base) (height base) = resize mA' (width base) (height base) ->
     resize mB (width base) (height base) = resize mB' (width base) (height base) ->
     Worker.regenerate e base ref mA mB = Worker.regenerate e base ref' mA' mB').
Proof.
  split; [|split].
  - intros r W H HW HH. split; [reflexivity|split; [reflexivity|]].
    apply gen_bitmap_length; assumption.
  - intros p W H j i c Hw Hh Hj Hi Hc. unfold chan, pixel_index. cbn [width data resize].
    replace ((i * W + j) * 4 + c <? 0) with false by (symmetry; apply Z.ltb_ge; nia).
    rewrite gen_bitmap_lookup by assumption. rewrite Hw, Hh, !Z.mul_1_r.
    rewrite (Z.div_small i H), (Z.div_small j W) by lia. reflexivity.
  - intros e base ref ref' mA mA' mB mB' Hr HA HB.
    unfold Worker.regenerate. cbv zeta. now rewrite Hr, HA, HB.
Qed.

Lemma resize_stretches_witness :
  chan (data (resize white1 3 1)) (pixel_index (resize white1 3 1) 2 0 + 3) = Some 255.
Proof.
  destruct resize_stretches as (_ & Hpx & _).
  rewrite (Hpx white1 3 1 2 0 3 eq_refl eq_refl ltac:(lia) ltac:(lia) ltac:(lia)).
  reflexivity.
Defined.

(** C4 as stated fails: a 1x1 opaque reference on a 3x1 base is stretched
    over the whole canvas, whereas the contain fit leaves the left pixel
    transparent; the stretched patch is what the worker sends to the
    model. *)
Lemma stretch_not_contain_fit :
  chan (data (resize white1 3 1)) 3 = Some 255 /\
  chan (data (contain_fit white1 3 1)) 3 = Some 0 /\
  Worker.process small_ref_files env_probe =
    Worker.Json 500 "Processing failed" (Some "opaque").
Proof. vm_compute. repeat split. Qed.

(** ** The server.js handler answers with the source image *)




(** ** The server.js route: multer's field check before the handler *)

Lemma insert_sorted_perm {A} (key : A -> option Z) (x : A) (l : list A) :
  Server.insert_sorted key x l ≡ₚ x :: l.
Proof.
  induction l as [|y l IH]; simpl; [done|].
  destruct (0 <? _); [done|]. rewrite IH. apply perm_swap.
Qed.

Lemma sort_by_perm {A} (key : A -> option Z) (l acc : list A) :
  fold_left (fun acc x => Server.insert_sorted key x acc) l acc ≡ₚ l ++ acc.
Proof.
  revert acc. induction l as [|x l IH]; intros acc; simpl; [done|].
  rewrite IH, insert_sorted_perm. symmetry. apply Permutation_middle.
Qed.

Lemma multer_rejects_field (fs : list (string * list Server.sfile)) n f rest :
  In (n, f :: rest) fs -> Server.upload_field n = false -> Server.multer_ok fs = false.
Proof.
  intros Hin Hn. unfold Server.multer_ok.
  destruct (forallb _ fs) eqn:Hall; [|reflexivity].
  rewrite forallb_forall in Hall. specialize (Hall _ Hin). simpl in Hall. congruence.
Qed.

Lemma upload_field_prefix (pre n : string) :
  String.prefix pre "source_image" = false -> String.prefix pre "reference_image" = false ->
  String.prefix pre n = true -> Server.upload_field n = false.
Proof.
  intros Hs Hr Hn. unfold Server.upload_field.
  destruct (String.eqb_spec n "source_image") as [->|_]; [congruence|].
  destruct (String.eqb_spec n "reference_image") as [->|_]; [congruence|].
  reflexivity.
Qed.

(** A request multer accepts carries no file under a field name starting
    with [source_mask_] or [reference_mask_]: [listMasks] finds none. *)
Lemma listMasks_accepted (req : Server.request) (pre : string) :
  Server.multer_ok (Server.files req) = true ->
  String.prefix pre "source_image" = false -> String.prefix pre "reference_image" = false ->
  Server.listMasks req pre = [].
Proof.
  intros Hok Hs Hr.
  assert (Hin : forall e, In e (Server.sort_by (fun e => Server.suffix_key e.1)
                  (filter (fun e => String.prefix pre e.1) (Server.files req))) -> e.2 = []).
  { intros [n fs] He. unfold Server.sort_by in He.
    apply (Permutation_in _ (sort_by_perm _ _ [])) in He. rewrite app_nil_r in He.
    apply list_elem_of_In, list_elem_of_filter in He as [Hp He].
    apply list_elem_of_In in He. simpl in Hp |- *.
    assert (Hp' : String.prefix pre n = true)
      by (destruct (String.prefix pre n); [reflexivity|contradiction]).
    destruct fs as [|f rest]; [reflexivity|].
    pose proof (multer_rejects_field _ _ _ _ He (upload_field_prefix pre n Hs Hr Hp')).
    congruence. }
  unfold Server.listMasks. cbv zeta. revert Hin.
  generalize (Server.sort_by (fun e => Server.suffix_key e.1)
                (filter (fun e => String.prefix pre e.1) (Server.files req))) as l.
  induction l as [|e l IH]; intros Hin; [reflexivity|].
  simpl. rewrite (Hin e (or_introl eq_refl)). apply IH. intros e' He'. apply Hin. now right.
Qed.




(** ** C5: mask pairs are not composited in sequence *)




(** ** C7: failures of the model call *)

(** C7 (amended).  Once the bitmaps are read, both masks are non-empty and
    an API key is set: a rejected model call is caught by the generic
    handler and answered [500 "Processing failed"] with the rejection text
    as details, the class used for every thrown error; an answer without an
    image part is answered [502 "Model returned no image"].  Neither is an
    image response. *)
Theorem generation_failures (files : list Worker.upload) (e : Worker.env)
    (base ref mA mB : raster) :
  decoded files base ref mA mB ->
  Worker.api_key_missing (Worker.gemini_api_key e) = false ->
  (exists bbA, maskBBox (resize mA (width base) (height base)) = Some bbA) ->
  (exists bbB, maskBBox (resize mB (width base) (height base)) = Some bbB) ->
  (forall msg, (forall a b c, Worker.generate_content e a b c = inl msg) ->
     Worker.process files e = Worker.Json 500 "Processing failed" (Some msg)) /\
  ((forall a b c, exists parts,
      Worker.generate_content e a b c = inr parts /\ Worker.find_image parts = None) ->
     Worker.process files e = Worker.Json 502 "Model returned no image" None).
Proof.
  intros Hd Hk [bbA HA] [bbB HB].
  rewrite (process_decoded files e base ref mA mB Hd).
  unfold Worker.regenerate. cbv zeta. rewrite HA, HB, Hk.
  unfold Worker.bindM, Worker.try. split.
  - intros msg Hg. rewrite Hg. reflexivity.
  - intros Hno.
    lazymatch goal with
    | |- context [Worker.generate_content e ?a ?b ?c] =>
        destruct (Hno a b c) as (parts & Hp & Hf); rewrite Hp, Hf; reflexivity
    end.
Qed.

Lemma generation_failures_witness :
  Worker.process (worker_files mask_mid) (env_fail "quota exceeded") =
    Worker.Json 500 "Processing failed" (Some "quota exceeded").
Proof.
  destruct (generation_failures (worker_files mask_mid) (env_fail "quota exceeded")
              gray3 blue3 mask_mid mask_mid (decoded_worker_files mask_mid)
              eq_refl (ex_intro _ _ eq_refl) (ex_intro _ _ eq_refl)) as [Hfail _].
  apply Hfail. intros a b c. reflexivity.
Defined.

(** C7 as stated fails: a rejected model call and an undecodable upload
    get the same status and the same error class, so a generation failure
    has no class of its own. *)
Lemma generation_failure_not_distinguished :
  Worker.process (worker_files mask_mid)
    (env_fail "[GoogleGenerativeAI Error]: quota exceeded") =
    Worker.Json 500 "Processing failed" (Some "[GoogleGenerativeAI Error]: quota exceeded") /\
  Worker.process (corrupt_base_files "Error: Input buffer contains unsupported image format")
    (env_with (Some "k") white1) =
    Worker.Json 500 "Processing failed" (Some "Error: Input buffer contains unsupported image format").
Proof. split; vm_compute; reflexivity. Qed.

(** ** C8: no pass-through mode *)

Lemma process_png_decoded (files : list Worker.upload) (e : Worker.env) (out : raster) :
  Worker.process files e = Worker.Png out ->
  exists base ref mA mB, decoded files base ref mA mB /\
    match Worker.regenerate e base ref mA mB with inl r => r | inr r => r end =
      Worker.Png out.
Proof.
  unfold Worker.process, Worker.handle.
  destruct (Worker.pick files Worker.src_names) as [sf|] eqn:H1; [|discriminate].
  destruct (Worker.pick files Worker.ref_names) as [rf|] eqn:H2; [|discriminate].
  destruct (Worker.pick files Worker.a_names) as [af|] eqn:H3; [|discriminate].
  destruct (Worker.pick files Worker.b_names) as [bf|] eqn:H4; [|discriminate].
  unfold Worker.sharp_png, Worker.try.
  destruct (Worker.content sf) as [?|[?|base]] eqn:C1,
           (Worker.content rf) as [?|[?|ref]] eqn:C2,
           (Worker.content af) as [?|[?|mA]] eqn:C3,
           (Worker.content bf) as [?|[?|mB]] eqn:C4; cbn; try discriminate.
  intros Hp. exists base, ref, mA, mB. split; [|exact Hp].
  exists sf, rf, af, bf. tauto.
Qed.

(** C8 (amended).  There is no pass-through mode.  In the part_000 worker,
    an unset or empty [GEMINI_API_KEY] never yields an image: the request
    ends in an error, [500 "Missing GEMINI_API_KEY"] once the bitmaps are
    read and both resized masks are non-empty.  In server.js the [mode]
    field changes nothing in the response of the route. *)
Theorem no_pass_through_mode :
  (forall files e out,
     Worker.api_key_missing (Worker.gemini_api_key e) = true ->
     Worker.process files e <> Worker.Png out) /\
  (forall files e base ref mA mB,
     decoded files base ref mA mB ->
     (exists bbA, maskBBox (resize mA (width base) (height base)) = Some bbA) ->
     (exists bbB, maskBBox (resize mB (width base) (height base)) = Some bbB) ->
     Worker.api_key_missing (Worker.gemini_api_key e) = true ->
     Worker.process files e = Worker.Json 500 "Missing GEMINI_API_KEY" None) /\
  (forall fs m1 m2 rf q,
     Server.route (Server.mkRequest fs m1 rf q) =
     Server.route (Server.mkRequest fs m2 rf q)).
Proof.
  split; [|split].
  - intros files e out Hk Hp.
    destruct (process_png_decoded files e out Hp) as (base & ref & mA & mB & _ & Hr).
    revert Hr. unfold Worker.regenerate. cbv zeta.
    destruct (maskBBox (resize mA (width base) (height base))); [|discriminate].
    destruct (maskBBox (resize mB (width base) (height base))); [|discriminate].
    rewrite Hk. discriminate.
  - intros files e base ref mA mB Hd [bbA HA] [bbB HB] Hk.
    rewrite (process_decoded files e base ref mA mB Hd).
    unfold Worker.regenerate. cbv zeta. now rewrite HA, HB, Hk.
  - intros. reflexivity.
Qed.

Lemma no_pass_through_mode_witness :
  Worker.process (worker_files mask_mid) (env_with None white1) =
    Worker.Json 500 "Missing GEMINI_API_KEY" None /\
  Server.route passthrough_request =
  Server.route (Server.mkRequest (Server.files passthrough_request) None None None).
Proof.
  destruct no_pass_through_mode as (_ & Hw & Hs). split.
  - apply (Hw _ _ gray3 blue3 mask_mid mask_mid (decoded_worker_files mask_mid)).
    + eexists; reflexivity.
    + eexists; reflexivity.
    + reflexivity.
  - apply Hs.
Defined.

(** C8 as stated fails: with no API key the worker answers with an error
    instead of copying the reference patch, and asking server.js for a
    pass-through mode on a request it accepts yields an error, not the
    reference. *)
Lemma missing_key_is_an_error :
  Worker.process (worker_files mask_mid) (env_with None white1) =
    Worker.Json 500 "Missing GEMINI_API_KEY" None /\
  Server.route passthrough_request =
    Server.Json 400 "Bad Request"
      "No masks found. Please paint at least one source_mask_# and reference_mask_#.".
Proof. split; vm_compute; reflexivity. Qed.

(* ================================================================== *)
(** * Further properties of the code *)

(** ** [pick] (part_000, lines 21-26) *)

(** X1. [pick(req, names)] returns the first upload, in request order,
    whose field name equals one of [names] or starts with one of them
    followed by an underscore; the uploads before it match none. *)
Theorem pick_first_match (files : list Worker.upload) (names : list string) f :
  Worker.pick files names = Some f <->
  exists pre post, files = pre ++ f :: post /\
    existsb (Worker.field_matches (Worker.fieldname f)) names = true /\
    Forall (fun g => existsb (Worker.field_matches (Worker.fieldname g)) names = false) pre.
Proof.
  split.
  - induction files as [|g gs IH]; simpl; [discriminate|].
    destruct (existsb (Worker.field_matches (Worker.fieldname g)) names) eqn:Hg.
    + intros Hp. injection Hp as Hp. subst f. exists [], gs. auto.
    + intros Hp. destruct (IH Hp) as (pre & post & -> & Hf & Hpre).
      exists (g :: pre), post. auto.
  - intros (pre & post & -> & Hf & Hpre). induction Hpre as [|g pre Hg _ IH]; simpl.
    + now rewrite Hf.
    + now rewrite Hg.
Qed.

Lemma reference_prefix_matches (s : string) :
  String.prefix "reference_" s = true ->
  existsb (Worker.field_matches s) Worker.ref_names = true.
Proof.
  intros H. apply existsb_exists. exists "reference"%string. split.
  - simpl. auto.
  - unfold Worker.field_matches. change ("reference" ++ "_")%string with "reference_"%string. now rewrite H, orb_true_r.
Qed.

(** X2. The alias ["reference"] of the reference image accepts every field
    whose name starts with ["reference_"], reference masks included: when
    such an upload comes before any other reference-image upload, the
    worker takes it as the reference image. *)
Theorem pick_reference_takes_prefixed (pre post : list Worker.upload) f :
  Forall (fun g => existsb (Worker.field_matches (Worker.fieldname g)) Worker.ref_names = false) pre ->
  String.prefix "reference_" (Worker.fieldname f) = true ->
  Worker.pick (pre ++ f :: post) Worker.ref_names = Some f.
Proof.
  intros Hpre Hf. induction Hpre as [|g pre Hg _ IH]; cbn [Worker.pick app].
  - now rewrite (reference_prefix_matches _ Hf).
  - now rewrite Hg.
Qed.

Lemma pick_reference_takes_prefixed_witness :
  Worker.pick refmask_first_files Worker.ref_names =
    Some (Worker.mkUpload "reference_mask_0" (inr (inr mask_mid))).
Proof.
  apply (pick_reference_takes_prefixed [] _ _ (List.Forall_nil _)). reflexivity.
Defined.

(** ** The other exits of the worker handler (part_000, lines 61-131) *)

(** X3. If one of the four files cannot be found under its aliases, the
    worker answers [400 "Missing files"], whatever the environment. *)
Theorem missing_files_400 (files : list Worker.upload) (e : Worker.env) :
  Worker.pick files Worker.src_names = None \/ Worker.pick files Worker.ref_names = None \/
  Worker.pick files Worker.a_names = None \/ Worker.pick files Worker.b_names = None ->
  Worker.process files e = Worker.Json 400 "Missing files" None.
Proof.
  unfold Worker.process, Worker.handle. intros H.
  destruct (Worker.pick files Worker.src_names), (Worker.pick files Worker.ref_names),
           (Worker.pick files Worker.a_names), (Worker.pick files Worker.b_names);
    try reflexivity.
  destruct H as [H|[H|[H|H]]]; discriminate.
Qed.

Lemma missing_files_400_witness :
  Worker.process (tail (worker_files mask_mid)) (env_with (Some "k") white1) =
    Worker.Json 400 "Missing files" None.
Proof. apply missing_files_400. left. reflexivity. Defined.

(** X4. If the four files are found but the source image cannot be
    converted to PNG, the worker answers [500 "Processing failed"] with the
    conversion error as details, whatever the other files hold. *)
Theorem source_conversion_error (files : list Worker.upload) (e : Worker.env) sf rf af bf msg :
  Worker.pick files Worker.src_names = Some sf -> Worker.pick files Worker.ref_names = Some rf ->
  Worker.pick files Worker.a_names = Some af -> Worker.pick files Worker.b_names = Some bf ->
  Worker.content sf = inl msg ->
  Worker.process files e = Worker.Json 500 "Processing failed" (Some msg).
Proof.
  intros H1 H2 H3 H4 Hc. unfold Worker.process, Worker.handle.
  rewrite H1, H2, H3, H4. unfold Worker.sharp_png, Worker.try. now rewrite Hc.
Qed.

Lemma source_conversion_error_witness :
  Worker.process (corrupt_base_files "bad") (env_with (Some "k") white1) =
    Worker.Json 500 "Processing failed" (Some "bad").
Proof. eapply source_conversion_error; reflexivity. Defined.

(** X5. With the bitmaps read and both masks non-empty, an unset or empty
    [GEMINI_API_KEY] gives [500 "Missing GEMINI_API_KEY"]: the key is only
    checked after the masks. *)
Theorem missing_key_500 (files : list Worker.upload) (e : Worker.env) (base ref mA mB : raster) :
  decoded files base ref mA mB ->
  (exists bbA, maskBBox (resize mA (width base) (height base)) = Some bbA) ->
  (exists bbB, maskBBox (resize mB (width base) (height base)) = Some bbB) ->
  Worker.api_key_missing (Worker.gemini_api_key e) = true ->
  Worker.process files e = Worker.Json 500 "Missing GEMINI_API_KEY" None.
Proof.
  intros Hd [bbA HA] [bbB HB] Hk. rewrite (process_decoded files e base ref mA mB Hd).
  unfold Worker.regenerate. cbv zeta. now rewrite HA, HB, Hk.
Qed.

Lemma missing_key_500_witness :
  Worker.process (worker_files mask_mid) (env_with (Some "") white1) =
    Worker.Json 500 "Missing GEMINI_API_KEY" None.
Proof.
  apply (missing_key_500 _ _ gray3 blue3 mask_mid mask_mid (decoded_worker_files mask_mid));
    [eexists; reflexivity|eexists; reflexivity|reflexivity].
Defined.

(** ** The box of [maskBBox] and [clampBBox] (part_000, lines 29-57) *)

Lemma maskBBox_bounds (m : raster) (b : bbox) :
  maskBBox m = Some b ->
  0 <= bb_x b /\ 1 <= bb_w b /\ bb_x b + bb_w b <= width m /\
  0 <= bb_y b /\ 1 <= bb_h b /\ bb_y b + bb_h b <= height m.
Proof.
  pose proof (bbox_inv_scan m) as (Hb & Hn & He).
  unfold maskBBox. change (mkScan (width m) (height m) (-1) (-1)) with (scan0 m).
  set (s := scan (width m) (height m) (bbox_step m) (scan0 m)) in *.
  destruct (existsb (act m) (coords (width m) (height m))) eqn:E.
  - destruct (He eq_refl) as ((p1 & Hp1 & Ha1 & E1) & (p2 & Hp2 & Ha2 & E2) &
                             (p3 & Hp3 & Ha3 & E3) & (p4 & Hp4 & Ha4 & E4)).
    pose proof (Hb p1 Hp1 Ha1) as B1. pose proof (Hb p3 Hp3 Ha3) as B3.
    destruct p1 as [x1 y1], p2 as [x2 y2], p3 as [x3 y3], p4 as [x4 y4].
    apply in_coords in Hp1, Hp2, Hp3, Hp4. simpl in *.
    replace (maxX s <? 0) with false by (symmetry; apply Z.ltb_ge; lia).
    intros [= <-]. cbn [bb_x bb_y bb_w bb_h]. clearbody s. lia.
  - rewrite (Hn eq_refl). unfold scan0. cbn [maxX]. simpl (-1 <? 0). discriminate.
Qed.

(** X6. A box returned by [maskBBox] has width and height at least 1 and
    lies inside the mask: [0 <= x], [x + w <= width], and the same for
    [y], [h] and [height]. *)
Theorem maskBBox_within_mask (m : raster) (b : bbox) :
  maskBBox m = Some b ->
  0 <= bb_x b /\ 1 <= bb_w b /\ bb_x b + bb_w b <= width m /\
  0 <= bb_y b /\ 1 <= bb_h b /\ bb_y b + bb_h b <= height m.
Proof. apply maskBBox_bounds. Qed.

Lemma maskBBox_within_mask_witness :
  maskBBox mask_left = Some (mkBBox 0 0 1 1) /\ 0 + 1 <= width mask_left.
Proof.
  split; [reflexivity|].
  destruct (maskBBox_within_mask mask_left (mkBBox 0 0 1 1) eq_refl) as (_ & _ & H & _).
  exact H.
Defined.

Lemma clampBBox_id (b : bbox) (W H : Z) :
  0 <= bb_x b -> 1 <= bb_w b -> bb_x b + bb_w b <= W ->
  0 <= bb_y b -> 1 <= bb_h b -> bb_y b + bb_h b <= H ->
  clampBBox b W H = b.
Proof.
  destruct b as [x y w h]; cbn [bb_x bb_y bb_w bb_h]; intros.
  unfold clampBBox; cbn [bb_x bb_y bb_w bb_h].
  replace (Z.max 0 (Z.min (W - 1) x)) with x by lia.
  replace (Z.max 0 (Z.min (H - 1) y)) with y by lia.
  f_equal; lia.
Qed.

(** X7. The worker's clamp never changes a box that [maskBBox] found in a
    mask of the canvas size: [clampBBox (maskBBox m) (width m) (height m)]
    is the box itself.  Since both masks are resized to the base size
    first, the clamps of the handler are no-ops. *)
Theorem clampBBox_noop_on_maskBBox (m : raster) (b : bbox) :
  maskBBox m = Some b -> clampBBox b (width m) (height m) = b.
Proof.
  intros Hm. destruct (maskBBox_bounds m b Hm) as (? & ? & ? & ? & ? & ?).
  now apply clampBBox_id.
Qed.

Lemma clampBBox_noop_on_maskBBox_witness :
  maskBBox mask_left = Some (mkBBox 0 0 1 1) /\
  clampBBox (mkBBox 0 0 1 1) (width mask_left) (height mask_left) = mkBBox 0 0 1 1.
Proof.
  split; [reflexivity|]. now apply clampBBox_noop_on_maskBBox.
Defined.

(** X8. On a canvas of at least one pixel, [clampBBox] is idempotent:
    clamping a clamped box changes nothing. *)
Theorem clampBBox_idempotent (b : bbox) (W H : Z) :
  1 <= W -> 1 <= H -> clampBBox (clampBBox b W H) W H = clampBBox b W H.
Proof.
  intros HW HH. destruct b as [x y w h]. unfold clampBBox at 2.
  cbn [bb_x bb_y bb_w bb_h]. apply clampBBox_id; unfold clampBBox; cbn [bb_x bb_y bb_w bb_h]; lia.
Qed.

Lemma clampBBox_idempotent_witness :
  clampBBox (clampBBox (mkBBox 5 (-2) 9 0) 3 2) 3 2 = clampBBox (mkBBox 5 (-2) 9 0) 3 2.
Proof. apply clampBBox_idempotent; lia. Defined.

(** ** server.js: the request checks (lines 36-54 and 85-130) *)

(** X9. [ensureFiles] names the first required file that is absent or has
    no upload: without [source_image] the answer is [400 "Bad Request"]
    naming it; with it but without [reference_image], the answer names
    [reference_image]. *)
Theorem server_missing_file (req : Server.request) :
  (Server.lookup_field (Server.files req) "source_image" = None \/
   Server.lookup_field (Server.files req) "source_image" = Some [] ->
   Server.process req = Server.Json 400 "Bad Request" "Missing file: source_image") /\
  (forall sf rest, Server.lookup_field (Server.files req) "source_image" = Some (sf :: rest) ->
   Server.lookup_field (Server.files req) "reference_image" = None \/
   Server.lookup_field (Server.files req) "reference_image" = Some [] ->
   Server.process req = Server.Json 400 "Bad Request" "Missing file: reference_image").
Proof.
  unfold Server.process, Server.handler, Server.bindM. cbn [Server.ensureFiles].
  split.
  - intros [H|H]; now rewrite H.
  - intros sf rest Hs [H|H]; now rewrite Hs, H.
Qed.

Lemma server_missing_file_witness :
  Server.process no_source_request =
    Server.Json 400 "Bad Request" "Missing file: source_image".
Proof. apply (proj1 (server_missing_file no_source_request)). now left. Defined.

(** X10. With both images uploaded, a source image whose MIME type is not
    one of [okTypes] (png, jpeg, jpg, webp) is answered with
    [415 "Unsupported Media Type"] naming the type. *)
Theorem server_unsupported_source (req : Server.request) sf rest rf rrest :
  Server.lookup_field (Server.files req) "source_image" = Some (sf :: rest) ->
  Server.lookup_field (Server.files req) "reference_image" = Some (rf :: rrest) ->
  Server.ok_type (Server.mimetype sf) = false ->
  Server.process req = Server.Json 415 "Unsupported Media Type"
    ("Unsupported file type for source_image: " ++ Server.mimetype sf).
Proof.
  intros Hs Hr Ht. unfold Server.process, Server.handler, Server.bindM.
  cbn [Server.ensureFiles]. rewrite Hs, Hr, Ht. reflexivity.
Qed.

Lemma server_unsupported_source_witness :
  Server.process gif_request = Server.Json 415 "Unsupported Media Type"
    "Unsupported file type for source_image: image/gif".
Proof.
  apply (server_unsupported_source gif_request (Server.mkSFile "image/gif" (inr gray3)) []
           (png_file blue3) []); reflexivity.
Defined.

(** *** [listMasks] orders by the numeric suffix *)








(** *** The pairs and the answer *)

Lemma collect_pairs_ok (i : Z) (sms rms : list Server.sfile) (ps : list Server.pair) :
  Server.collect_pairs i sms rms = inr ps ->
  length ps = Nat.min (length sms) (length rms) /\
  forall k p, ps !! k = Some p ->
    Server.index p = i + Z.of_nat k /\
    exists s r, sms !! k = Some s /\ rms !! k = Some r /\
      Server.ok_type (Server.mimetype s) = true /\ Server.ok_type (Server.mimetype r) = true /\
      Server.to_png s = inr (Server.sourceMaskPNG p) /\
      Server.to_png r = inr (Server.referenceMaskPNG p).
Proof.
  revert i rms ps. induction sms as [|s sms IH]; intros i rms ps Hc.
  - simpl in Hc. injection Hc as <-. split; [reflexivity|]. intros k p Hk. discriminate.
  - destruct rms as [|r rms].
    { simpl in Hc. injection Hc as <-. split; [reflexivity|]. intros k p Hk. discriminate. }
    cbn [Server.collect_pairs] in Hc.
    destruct (Server.ok_type (Server.mimetype s)) eqn:Hs; [|discriminate].
    destruct (Server.ok_type (Server.mimetype r)) eqn:Hr; [|discriminate].
    unfold Server.bindM, Server.sharp in Hc. simpl negb in Hc. cbv iota in Hc.
    destruct (Server.to_png s) as [e|sp] eqn:Ps; [discriminate|].
    destruct (Server.to_png r) as [e|rp] eqn:Pr; [discriminate|].
    destruct (Server.collect_pairs (i + 1) sms rms) as [e|rest] eqn:Hrest; [discriminate|].
    injection Hc as <-. destruct (IH _ _ _ Hrest) as [Hl Hk]. split.
    + simpl. now rewrite Hl.
    + intros [|k] p Hp.
      * injection Hp as <-. split; [simpl; lia|]. exists s, r. simpl. auto 10.
      * destruct (Hk k p Hp) as [Hi Hrest']. split; [lia|exact Hrest'].
Qed.

(** X12. The pair loop runs over mask lists of equal length (the handler
    has checked the counts).  When it succeeds, it yields one pair per mask
    position, in order: pair [k] has index [k] and holds the PNG bitmaps of
    source mask [k] and reference mask [k], both of an accepted MIME type. *)
Theorem collect_pairs_spec (sms rms : list Server.sfile) (ps : list Server.pair) :
  length sms = length rms ->
  Server.collect_pairs 0 sms rms = inr ps ->
  length ps = length sms /\
  forall k p, ps !! k = Some p ->
    Server.index p = Z.of_nat k /\
    exists s r, sms !! k = Some s /\ rms !! k = Some r /\
      Server.ok_type (Server.mimetype s) = true /\ Server.ok_type (Server.mimetype r) = true /\
      Server.to_png s = inr (Server.sourceMaskPNG p) /\
      Server.to_png r = inr (Server.referenceMaskPNG p).
Proof.
  intros Heq Hc. destruct (collect_pairs_ok 0 sms rms ps Hc) as [Hl Hk].
  split; [rewrite Hl, Heq; apply Nat.min_id|].
  intros k p Hp. destruct (Hk k p Hp) as [Hi Hrest]. split; [lia|exact Hrest].
Qed.

Lemma collect_pairs_spec_witness :
  length [Server.mkPair 0 mask_mid mask_mid; Server.mkPair 1 mask_left mask_mid] =
    length [png_file mask_mid; png_file mask_left].
Proof.
  exact (proj1 (collect_pairs_spec [png_file mask_mid; png_file mask_left]
                  [png_file mask_mid; png_file mask_mid]
                  [Server.mkPair 0 mask_mid mask_mid; Server.mkPair 1 mask_left mask_mid]
                  eq_refl eq_refl)).
Defined.

(** ** The worker's output outside the source-mask box (part_000, lines 116-126) *)

Lemma scan_inv {A} (P : A -> Prop) (w h : Z) (f : A -> Z -> Z -> A) (a : A) :
  P a -> (forall a x y, 0 <= x < w -> 0 <= y < h -> P a -> P (f a x y)) ->
  P (scan w h f a).
Proof.
  intros Ha Hf. rewrite scan_coords.
  assert (forall p, In p (coords w h) -> 0 <= p.1 < w /\ 0 <= p.2 < h) as Hin
    by (intros [x y] Hp; now apply in_coords in Hp).
  revert a Ha Hin. generalize (coords w h) as L.
  induction L as [|p L IH]; intros a Ha Hin; simpl; [exact Ha|].
  apply IH; [|intros q Hq; apply Hin; now right].
  destruct (Hin p (or_introl eq_refl)). now apply Hf.
Qed.

Lemma store_other (d : list Z) (i j v : Z) :
  i <> j -> 0 <= j -> store d i v !! Z.to_nat j = d !! Z.to_nat j.
Proof.
  intros Hij Hj. unfold store. destruct (i <? 0) eqn:Hi; [done|].
  apply Z.ltb_ge in Hi. apply list_lookup_insert_ne. lia.
Qed.

Lemma store_same (d : list Z) (i v u : Z) :
  0 <= i -> d !! Z.to_nat i = Some u -> 0 <= v <= 255 ->
  store d i v !! Z.to_nat i = Some v.
Proof.
  intros Hi Hu Hv. unfold store. replace (i <? 0) with false by (symmetry; apply Z.ltb_ge; lia).
  rewrite list_lookup_insert_eq; [f_equal; lia|]. now apply lookup_lt_Some in Hu.
Qed.

Lemma pixel_inj (W x1 y1 x2 y2 c1 c2 : Z) :
  0 <= x1 < W -> 0 <= x2 < W -> 0 <= c1 < 4 -> 0 <= c2 < 4 ->
  (y1 * W + x1) * 4 + c1 = (y2 * W + x2) * 4 + c2 ->
  x1 = x2 /\ y1 = y2 /\ c1 = c2.
Proof.
  intros Hx1 Hx2 Hc1 Hc2 He.
  assert (y1 * W + x1 = y2 * W + x2) as Hr by lia.
  destruct (Z.lt_trichotomy y1 y2) as [Hy|[Hy|Hy]].
  - assert (y1 * W + W <= y2 * W) by nia. lia.
  - subst. lia.
  - assert (y2 * W + W <= y1 * W) by nia. lia.
Qed.

Lemma repeat_lookup (x : Z) (n i : nat) : (i < n)%nat -> repeat x n !! i = Some x.
Proof.
  revert i. induction n as [|n IH]; intros [|i] Hi; simpl; try lia; [done|].
  apply IH. lia.
Qed.

(** [composite] leaves every destination pixel outside the rectangle the
    source covers as it was. *)
Lemma composite_outside (dst src : raster) (x y px py c : Z) :
  0 <= px < width dst -> 0 <= py -> 0 <= c < 4 ->
  ~ (x <= px < x + width src /\ y <= py < y + height src) ->
  data (composite dst src x y) !! Z.to_nat ((py * width dst + px) * 4 + c) =
  data dst !! Z.to_nat ((py * width dst + px) * 4 + c).
Proof.
  intros Hpx Hpy Hc Hout. simpl.
  apply (scan_inv (fun d => d !! Z.to_nat ((py * width dst + px) * 4 + c) =
                            data dst !! Z.to_nat ((py * width dst + px) * 4 + c)));
    [reflexivity|].
  intros d sx sy Hsx Hsy IH. cbv zeta.
  destruct ((0 <=? x + sx) && (x + sx <? width dst) && (0 <=? y + sy) && (y + sy <? height dst))
    eqn:Hb; [|exact IH].
  rewrite !andb_true_iff, !Z.leb_le, !Z.ltb_lt in Hb.
  assert (0 <= (py * width dst + px) * 4 + c) by nia.
  assert (forall c', 0 <= c' < 4 ->
            ((y + sy) * width dst + (x + sx)) * 4 + c' <> (py * width dst + px) * 4 + c) as Hne.
  { intros c' Hc' He. apply pixel_inj in He; lia. }
  pose proof (Hne 0 ltac:(lia)). pose proof (Hne 1 ltac:(lia)).
  pose proof (Hne 2 ltac:(lia)). pose proof (Hne 3 ltac:(lia)).
  rewrite !store_other by lia. exact IH.
Qed.

(** [mask] only rescales alpha bytes: a byte that is 0 stays 0. *)
Lemma mask_keeps_zero (dst src : raster) (x y j : Z) :
  0 <= j -> data dst !! Z.to_nat j = Some 0 ->
  data (mask dst src x y) !! Z.to_nat j = Some 0.
Proof.
  intros Hj H0. unfold mask. cbn [data].
  apply (scan_inv (fun d => d !! Z.to_nat j = Some 0)); [exact H0|].
  intros d sx sy _ _ IH. cbv zeta.
  destruct (_ && _); [|exact IH].
  destruct (Z.eq_dec (((y + sy) * width dst + (x + sx)) * 4 + 3) j) as [Heq|Hne].
  - assert (chan0 d j = 0) as Hz.
    { unfold chan0, chan. replace (j <? 0) with false by (symmetry; apply Z.ltb_ge; lia).
      now rewrite IH. }
    rewrite Heq, Hz, Z.mul_0_l, Z.div_0_l by lia.
    apply (store_same _ _ _ 0); [lia|exact IH|lia].
  - rewrite store_other by lia. exact IH.
Qed.

(** Jimp's [srcOver] with a fully transparent source pixel returns the
    destination pixel, when that one is not fully transparent. *)
Lemma src_over_clear (sr sg sb dr dg db da : Z) :
  0 < da -> src_over sr sg sb 0 dr dg db da = (dr, dg, db, da).
Proof.
  intros Hda. unfold src_over.
  replace (da * 255 + 0 * 255 - da * 0) with (da * 255) by ring.
  destruct (Z.eqb_spec (da * 255) 0) as [E|_]; [lia|].
  assert (forall s d, (s * 0 * 255 + d * da * (255 - 0)) / (da * 255) = d) as Hmix.
  { intros s d. replace (s * 0 * 255 + d * da * (255 - 0)) with (d * (da * 255)) by ring.
    apply Z.div_mul. lia. }
  now rewrite !Hmix, Z.div_mul by lia.
Qed.

Ltac destruct_src_over :=
  lazymatch goal with
  | |- context [src_over ?a1 ?a2 ?a3 ?a4 ?a5 ?a6 ?a7 ?a8] =>
      destruct (src_over a1 a2 a3 a4 a5 a6 a7 a8) as [[[? ?] ?] ?]
  end.

(** [dst.composite(src, 0, 0)] with [src] of the size of [dst]: a
    destination pixel of bytes, not fully transparent, under a fully
    transparent source pixel keeps its four bytes. *)
Lemma composite_clear_pixel (dst src : raster) (px py c : Z) :
  width src = width dst -> height src = height dst ->
  0 <= px < width dst -> 0 <= py < height dst -> 0 <= c < 4 ->
  data src !! Z.to_nat ((py * width dst + px) * 4 + 3) = Some 0 ->
  (forall c', 0 <= c' < 4 -> exists v,
     data dst !! Z.to_nat ((py * width dst + px) * 4 + c') = Some v /\ 0 <= v <= 255) ->
  data dst !! Z.to_nat ((py * width dst + px) * 4 + 3) <> Some 0 ->
  data (composite dst src 0 0) !! Z.to_nat ((py * width dst + px) * 4 + c) =
  data dst !! Z.to_nat ((py * width dst + px) * 4 + c).
Proof.
  intros Hw Hh Hpx Hpy Hc Hs Hbytes Hna.
  set (W := width dst) in *. set (k := (py * W + px) * 4).
  assert (0 <= k) by (unfold k; nia).
  destruct (Hbytes 0 ltac:(lia)) as (v0 & B0 & R0).
  destruct (Hbytes 1 ltac:(lia)) as (v1 & B1 & R1).
  destruct (Hbytes 2 ltac:(lia)) as (v2 & B2 & R2).
  destruct (Hbytes 3 ltac:(lia)) as (v3 & B3 & R3).
  rewrite Z.add_0_r in B0. fold k in B0, B1, B2, B3, Hs, Hna.
  assert (v3 <> 0) by congruence.
  revert c Hc. unfold composite. cbn [data].
  apply (scan_inv (fun d => forall c, 0 <= c < 4 ->
                    d !! Z.to_nat (k + c) = data dst !! Z.to_nat (k + c)));
    [reflexivity|].
  intros d sx sy Hsx Hsy IH. cbv zeta.
  destruct (_ && _); [|exact IH].
  rewrite !Z.add_0_l. fold W.
  destruct (Z.eq_dec sx px) as [->|Hx]; [destruct (Z.eq_dec sy py) as [->|Hy]|].
  - rewrite Hw. fold k.
    assert (forall c, 0 <= c < 4 -> chan0 d (k + c) = chan0 (data dst) (k + c)) as Hd.
    { intros c' Hc'. unfold chan0, chan.
      replace (k + c' <? 0) with false by (symmetry; apply Z.ltb_ge; lia).
      now rewrite IH. }
    pose proof (Hd 0 ltac:(lia)) as E0. rewrite Z.add_0_r in E0.
    rewrite E0, !Hd by lia.
    assert (chan0 (data src) (k + 3) = 0) as Es.
    { unfold chan0, chan. replace (k + 3 <? 0) with false by (symmetry; apply Z.ltb_ge; lia).
      now rewrite Hs. }
    assert (forall i v, 0 <= i -> data dst !! Z.to_nat i = Some v -> chan0 (data dst) i = v)
      as Ev.
    { intros i v Hi Hv. unfold chan0, chan.
      replace (i <? 0) with false by (symmetry; apply Z.ltb_ge; lia). now rewrite Hv. }
    rewrite Es, (Ev k v0), (Ev (k + 1) v1), (Ev (k + 2) v2), (Ev (k + 3) v3) by (auto; lia).
    rewrite src_over_clear by lia. cbv beta iota.
    pose proof (IH 0 ltac:(lia)) as D0. pose proof (IH 1 ltac:(lia)) as D1.
    pose proof (IH 2 ltac:(lia)) as D2. pose proof (IH 3 ltac:(lia)) as D3.
    rewrite Z.add_0_r in D0. rewrite B0 in D0. rewrite B1 in D1.
    rewrite B2 in D2. rewrite B3 in D3.
    intros c Hc. assert (c = 0 \/ c = 1 \/ c = 2 \/ c = 3) as C by lia.
    destruct C as [ -> | [ -> | [ -> | -> ]]].
    + rewrite Z.add_0_r, !store_other by lia.
      rewrite (store_same _ _ _ v0); [now rewrite B0|lia|exact D0|lia].
    + rewrite !store_other by lia.
      rewrite (store_same _ _ _ v1); [now rewrite B1|lia| |lia].
      rewrite store_other by lia. exact D1.
    + rewrite !store_other by lia.
      rewrite (store_same _ _ _ v2); [now rewrite B2|lia| |lia].
      rewrite !store_other by lia. exact D2.
    + rewrite (store_same _ _ _ v3); [now rewrite B3|lia| |lia].
      rewrite !store_other by lia. exact D3.
  - destruct_src_over. intros c Hc.
    assert (forall c', 0 <= c' < 4 -> (sy * W + px) * 4 + c' <> k + c) as Hne.
    { intros c' Hc' He. unfold k in He. apply pixel_inj in He; lia. }
    pose proof (Hne 0 ltac:(lia)). pose proof (Hne 1 ltac:(lia)).
    pose proof (Hne 2 ltac:(lia)). pose proof (Hne 3 ltac:(lia)).
    rewrite !store_other by lia. now apply IH.
  - destruct_src_over. intros c Hc.
    assert (forall c', 0 <= c' < 4 -> (sy * W + sx) * 4 + c' <> k + c) as Hne.
    { intros c' Hc' He. unfold k in He. apply pixel_inj in He; lia. }
    pose proof (Hne 0 ltac:(lia)). pose proof (Hne 1 ltac:(lia)).
    pose proof (Hne 2 ltac:(lia)). pose proof (Hne 3 ltac:(lia)).
    rewrite !store_other by lia. now apply IH.
Qed.

Lemma regenerate_layers e base ref mA mB (out : raster) :
  match Worker.regenerate e base ref mA mB with inl r => r | inr r => r end =
    Worker.Png out ->
  exists bbA nano fe,
    maskBBox (resize mA (width base) (height base)) = Some bbA /\
    out = composite (clone base)
            (mask (composite (blank (width base) (height base))
                     (resize nano (bb_w (clampBBox bbA (width base) (height base)))
                                  (bb_h (clampBBox bbA (width base) (height base))))
                     (bb_x (clampBBox bbA (width base) (height base)))
                     (bb_y (clampBBox bbA (width base) (height base))))
                  fe 0 0) 0 0.
Proof.
  unfold Worker.regenerate. cbv zeta.
  destruct (maskBBox (resize mA (width base) (height base))) as [bbA|] eqn:HA;
    [|discriminate].
  destruct (maskBBox (resize mB (width base) (height base))) as [bbB|]; [|discriminate].
  destruct (Worker.api_key_missing (Worker.gemini_api_key e)); [discriminate|].
  unfold Worker.bindM, Worker.try.
  lazymatch goal with
  | |- context [Worker.generate_content e ?a ?b ?c] =>
      destruct (Worker.generate_content e a b c) as [err|parts]; [discriminate|]
  end.
  destruct (Worker.find_image parts) as [img|]; [|discriminate].
  destruct (Worker.read_image e img) as [err|nano]; [discriminate|].
  lazymatch goal with
  | |- context [feather ?a ?b] => destruct (feather a b) as [err|fe]; [discriminate|]
  end.
  intros [= <-]. exists bbA, nano, fe. split; reflexivity.
Qed.

(** X15. Outside the box that [maskBBox] finds in the (resized) source
    mask, the worker's output keeps the base image: for a base bitmap of
    bytes with a well-formed buffer, every opaque pixel (alpha 255) outside
    that box has the same four bytes in the output as in the base.  The
    regenerated patch, placed at the box and then masked, is transparent
    there, and [srcOver] of a transparent pixel over an opaque one gives
    back the opaque one's bytes, in Jimp's floating point as in the byte
    model. *)
Theorem output_outside_mask_box (files : list Worker.upload) (e : Worker.env)
    (base ref mA mB out : raster) (bbA : bbox) (px py c : Z) :
  decoded files base ref mA mB ->
  Worker.process files e = Worker.Png out ->
  length (data base) = Z.to_nat (width base * height base * 4) ->
  Forall (fun v => 0 <= v <= 255) (data base) ->
  maskBBox (resize mA (width base) (height base)) = Some bbA ->
  0 <= px < width base -> 0 <= py < height base ->
  ~ (bb_x bbA <= px < bb_x bbA + bb_w bbA /\ bb_y bbA <= py < bb_y bbA + bb_h bbA) ->
  chan0 (data base) (pixel_index base px py + 3) = 255 ->
  0 <= c < 4 ->
  chan (data out) (pixel_index base px py + c) = chan (data base) (pixel_index base px py + c).
Proof.
  intros Hd Hp Hlen Hbytes HA Hpx Hpy Hout Ha' Hc.
  assert (Ha : chan0 (data base) (pixel_index base px py + 3) <> 0) by (rewrite Ha'; discriminate).
  clear Ha'.
  rewrite (process_decoded files e base ref mA mB Hd) in Hp.
  destruct (regenerate_layers e base ref mA mB out Hp) as (bbA' & nano & fe & HA' & ->).
  rewrite HA in HA'. injection HA' as <-.
  set (W := width base) in *. set (H := height base) in *.
  assert (clampBBox bbA W H = bbA) as Hcl.
  { destruct (maskBBox_bounds _ _ HA) as (? & ? & ? & ? & ? & ?).
    apply clampBBox_id; cbn [width height resize] in *; lia. }
  rewrite Hcl.
  unfold pixel_index in Ha |- *. fold W in Ha |- *.
  set (k := (py * W + px) * 4).
  assert (0 <= k /\ k + 3 < W * H * 4) as [Hk0 Hk1] by (unfold k; nia).
  set (c1 := composite (blank W H) (resize nano (bb_w bbA) (bb_h bbA)) (bb_x bbA) (bb_y bbA)).
  assert (data c1 !! Z.to_nat (k + 3) = Some 0) as H1.
  { unfold c1, k.
    rewrite (composite_outside (blank W H) _ _ _ px py 3).
    all: cbn [data width height blank resize]; try lia; try exact Hout.
    apply repeat_lookup. lia. }
  set (c2 := mask c1 fe 0 0).
  assert (data c2 !! Z.to_nat (k + 3) = Some 0) as H2
    by (apply mask_keeps_zero; [lia|exact H1]).
  assert (forall c', 0 <= c' < 4 -> exists v,
            data (clone base) !! Z.to_nat ((py * width (clone base) + px) * 4 + c') = Some v /\
            0 <= v <= 255) as Hb.
  { intros c' Hc'. cbn [clone data width]. fold W. fold k.
    assert (is_Some (data base !! Z.to_nat (k + c'))) as [v Hv]
      by (apply lookup_lt_is_Some_2; unfold k in *; lia).
    exists v. split; [exact Hv|]. exact (Forall_lookup_1 _ _ _ _ Hbytes Hv). }
  assert (data (clone base) !! Z.to_nat ((py * width (clone base) + px) * 4 + 3) <> Some 0)
    as Hna.
  { cbn [clone data width]. fold W. fold k. intros E. apply Ha. unfold chan0, chan. fold k.
    replace (k + 3 <? 0) with false by (symmetry; apply Z.ltb_ge; lia). now rewrite E. }
  unfold chan. replace (k + c <? 0) with false by (symmetry; apply Z.ltb_ge; lia).
  pose proof (composite_clear_pixel (clone base) c2 px py c eq_refl eq_refl Hpx Hpy Hc H2 Hb Hna)
    as R.
  exact R.
Qed.

Lemma output_outside_mask_box_witness :
  exists out,
    Worker.process (worker_files mask_mid) (env_with (Some "k") white1) = Worker.Png out /\
    chan (data out) 0 = Some 100.
Proof.
  destruct (Worker.process (worker_files mask_mid) (env_with (Some "k") white1)) eqn:Hp.
  - vm_compute in Hp. discriminate.
  - exists out. split; [reflexivity|].
    exact (output_outside_mask_box (worker_files mask_mid) (env_with (Some "k") white1)
             gray3 blue3 mask_mid mask_mid out (mkBBox 1 0 1 1) 0 0 0
             (decoded_worker_files mask_mid) Hp eq_refl
             ltac:(repeat (apply List.Forall_cons; [lia|]); apply List.Forall_nil)
             eq_refl ltac:(simpl; lia) ltac:(simpl; lia) ltac:(simpl; lia)
             ltac:(vm_compute; reflexivity) ltac:(lia)).
Defined.

(** ** [feather] (part_000, lines 47-50) *)

Lemma fold_left_fst_length {T} (g : list Z * T -> Z -> list Z * T) (l : list Z) (s : list Z * T) :
  (forall s i, length (fst (g s i)) = length (fst s)) ->
  length (fst (fold_left g l s)) = length (fst s).
Proof.
  intros Hg. revert s. induction l as [|i l IH]; intros s; simpl; [done|].
  now rewrite IH, Hg.
Qed.

(** X16. When [feather(mask, radius)] succeeds, the blurred copy has the
    width, height and buffer length of the mask: the worker's
    [refPatchCanvas.mask(feathered, 0, 0)] lines it up with the canvas. *)
Theorem feather_keeps_size (m : raster) (radius : option Z) (fe : raster) :
  feather m radius = inr fe ->
  width fe = width m /\ height fe = height m /\ length (data fe) = length (data m).
Proof.
  unfold feather, gaussian. destruct (default 4 radius <? 1); [discriminate|].
  intros [= <-]. cbn [width height data clone]. split; [done|split; [done|]].
  apply scan_length. intros d x y. cbv zeta.
  rewrite fold_left_fst_length; [reflexivity|].
  intros [d' acc] iy. cbv beta iota zeta.
  lazymatch goal with
  | |- context [fold_left ?g ?l acc] => destruct (fold_left g l acc) as [[[[? ?] ?] ?] ?]
  end.
  cbn [fst]. now rewrite !store_length.
Qed.

Lemma feather_keeps_size_witness :
  exists fe, feather mask_mid None = inr fe /\ length (data fe) = 12%nat.
Proof.
  destruct (feather mask_mid None) as [err|fe] eqn:Hf.
  - vm_compute in Hf. discriminate.
  - exists fe. split; [reflexivity|].
    destruct (feather_keeps_size mask_mid None fe Hf) as (_ & _ & ->). reflexivity.
Defined.

(** ** server.js: the route (lines 85-92, 206-216) *)



(** X18. A request multer accepts holds no mask: when both images are
    present with an accepted MIME type, the handler answers
    [400 "Bad Request"] asking for masks. *)
Theorem route_no_masks (req : Server.request) sf rs rf rr :
  Server.multer_ok (Server.files req) = true ->
  Server.lookup_field (Server.files req) "source_image" = Some (sf :: rs) ->
  Server.lookup_field (Server.files req) "reference_image" = Some (rf :: rr) ->
  Server.ok_type (Server.mimetype sf) = true -> Server.ok_type (Server.mimetype rf) = true ->
  Server.route req = Server.Json 400 "Bad Request"
    "No masks found. Please paint at least one source_mask_# and reference_mask_#.".
Proof.
  intros Hok Hs Hr Hsf Hrf. unfold Server.route. rewrite Hok.
  unfold Server.process, Server.handler, Server.bindM.
  cbn [Server.ensureFiles]. rewrite Hs, Hr, Hsf, Hrf. simpl negb. cbv iota zeta.
  rewrite (listMasks_accepted req "source_mask_" Hok eq_refl eq_refl). reflexivity.
Qed.

Lemma route_no_masks_witness :
  Server.route passthrough_request = Server.Json 400 "Bad Request"
    "No masks found. Please paint at least one source_mask_# and reference_mask_#.".
Proof.
  apply (route_no_masks passthrough_request (png_file gray3) [] (png_file blue3) []);
    reflexivity.
Defined.
